(** * ai-photo-editor: the request handlers over the relational store

    A shallow embedding of the server side of the photo editor
    ([server/src/handlers/*.ts], [server/src/schema.ts],
    [server/src/db/schema.ts]).

    - The three tables ([images], [ai_operations], [projects]) are lists of
      rows kept in insertion order, each with the counter of its [serial]
      primary key.
    - A handler is a function from the store to an outcome (a returned value or
      a thrown [Error] with its message) and the store it leaves behind.  The
      [try { ... } catch (error) { console.error(...); throw error; }] wrapper
      of every handler logs and rethrows, so it is the identity on outcomes.
    - The time a statement runs at ([defaultNow()]) is an argument [now] of
      the handlers that write.
    - Identifiers, sizes and timestamps (milliseconds) are integers; the
      floating-point values the handlers touch ([processing_time], the tuning
      values of a parameter bag) are finite decimal numbers with a single
      zero, printed the way [Number.prototype.toString] prints them.
    - The storage engine itself is taken to accept every statement the handlers
      issue: its own failures (the handlers only log and rethrow them) are not
      part of the model.
    - Several handlers exist twice in the sources: as a placeholder
      declaration, whose body makes up a row or resolves to [null] without
      touching the store, and as the body that queries the store, which the
      test suites exercise.  The embedding follows the latter.  Of
      [updateProject] the sources hold the placeholder declaration only. *)

From Stdlib Require Import ZArith String Ascii List Bool Lia.
From Stdlib Require Import Permutation Sorted.
From Stdlib Require Import DecimalString DecimalNat DecimalZ.
From Stdlib Require DecimalFacts DecimalPos.
Import ListNotations.

Local Open Scope Z_scope.

(* ================================================================== *)
(** * Outcomes and the handler monad *)

Inductive outcome (A : Type) : Type :=
| Returned (value : A)
| Thrown (message : string).

Arguments Returned {A} value.
Arguments Thrown {A} message.

(* ================================================================== *)
(** * JavaScript numbers and their decimal rendering *)

Module JsNumber.

Inductive digit : Type :=
| dig0 | dig1 | dig2 | dig3 | dig4 | dig5 | dig6 | dig7 | dig8 | dig9.

Definition digit_eqb (a b : digit) : bool :=
  match a, b with
  | dig0, dig0 | dig1, dig1 | dig2, dig2 | dig3, dig3 | dig4, dig4
  | dig5, dig5 | dig6, dig6 | dig7, dig7 | dig8, dig8 | dig9, dig9 => true
  | _, _ => false
  end.

Definition is_dig0 (d : digit) : bool := digit_eqb d dig0.

Definition digit_char (d : digit) : ascii :=
  match d with
  | dig0 => "0" | dig1 => "1" | dig2 => "2" | dig3 => "3" | dig4 => "4"
  | dig5 => "5" | dig6 => "6" | dig7 => "7" | dig8 => "8" | dig9 => "9"
  end%char.

Definition char_digit (c : ascii) : option digit :=
  match c with
  | "0" => Some dig0 | "1" => Some dig1 | "2" => Some dig2 | "3" => Some dig3
  | "4" => Some dig4 | "5" => Some dig5 | "6" => Some dig6 | "7" => Some dig7
  | "8" => Some dig8 | "9" => Some dig9
  | _ => None
  end%char.

(** A finite number [x] is kept as the digits [s] and the exponent [n] of
    ECMAScript's [Number::toString]: [x = +/- 0.s * 10^n], with [s] as short
    as possible (no leading and no trailing zero), and no digit at all for
    zero. *)
Record number : Type := mkNumber {
  num_neg : bool;
  num_digits : list digit;
  num_exp : Z
}.

Definition zero : number := mkNumber false [] 0.

Definition is_zero (x : number) : bool :=
  match num_digits x with [] => true | _ => false end.

Definition last_digit (ds : list digit) : digit := last ds dig0.

(** The representation invariant of [number]. *)
Definition canonical (x : number) : Prop :=
  match num_digits x with
  | [] => num_neg x = false /\ num_exp x = 0
  | d :: _ => d <> dig0 /\ last_digit (num_digits x) <> dig0
  end.

Definition canonicalb (x : number) : bool :=
  match num_digits x with
  | [] => negb (num_neg x) && (num_exp x =? 0)
  | d :: _ => negb (is_dig0 d) && negb (is_dig0 (last_digit (num_digits x)))
  end.

Fixpoint digits_of_uint (u : Decimal.uint) : list digit :=
  match u with
  | Decimal.Nil => []
  | Decimal.D0 u => dig0 :: digits_of_uint u
  | Decimal.D1 u => dig1 :: digits_of_uint u
  | Decimal.D2 u => dig2 :: digits_of_uint u
  | Decimal.D3 u => dig3 :: digits_of_uint u
  | Decimal.D4 u => dig4 :: digits_of_uint u
  | Decimal.D5 u => dig5 :: digits_of_uint u
  | Decimal.D6 u => dig6 :: digits_of_uint u
  | Decimal.D7 u => dig7 :: digits_of_uint u
  | Decimal.D8 u => dig8 :: digits_of_uint u
  | Decimal.D9 u => dig9 :: digits_of_uint u
  end.

Fixpoint uint_of_digits (ds : list digit) : Decimal.uint :=
  match ds with
  | [] => Decimal.Nil
  | dig0 :: r => Decimal.D0 (uint_of_digits r)
  | dig1 :: r => Decimal.D1 (uint_of_digits r)
  | dig2 :: r => Decimal.D2 (uint_of_digits r)
  | dig3 :: r => Decimal.D3 (uint_of_digits r)
  | dig4 :: r => Decimal.D4 (uint_of_digits r)
  | dig5 :: r => Decimal.D5 (uint_of_digits r)
  | dig6 :: r => Decimal.D6 (uint_of_digits r)
  | dig7 :: r => Decimal.D7 (uint_of_digits r)
  | dig8 :: r => Decimal.D8 (uint_of_digits r)
  | dig9 :: r => Decimal.D9 (uint_of_digits r)
  end.

Definition chars_of_digits (ds : list digit) : list ascii := map digit_char ds.

Definition zeros (n : nat) : list digit := repeat dig0 n.

(** The decimal digits of a natural number, most significant first. *)
Definition digits_of_nat (n : nat) : list digit := digits_of_uint (Nat.to_uint n).

Definition nat_of_digits (ds : list digit) : nat := Nat.of_uint (uint_of_digits ds).

(** [Number::toString(x)] in radix 10, steps 5 to 10 of the ECMAScript
    algorithm, on the characters. *)
Definition toString_chars (x : number) : list ascii :=
  match num_digits x with
  | [] => ["0"%char]
  | d :: ds =>
      let s := d :: ds in
      let k := Z.of_nat (length s) in
      let n := num_exp x in
      let body :=
        if (k <=? n) && (n <=? 21) then
          chars_of_digits (s ++ zeros (Z.to_nat (n - k)))
        else if (0 <? n) && (n <=? 21) then
          chars_of_digits (firstn (Z.to_nat n) s) ++ ["."%char]
            ++ chars_of_digits (skipn (Z.to_nat n) s)
        else if (-6 <? n) && (n <=? 0) then
          ["0"; "."]%char ++ chars_of_digits (zeros (Z.to_nat (- n)) ++ s)
        else
          let e := n - 1 in
          [digit_char d]
            ++ match ds with [] => [] | _ => "."%char :: chars_of_digits ds end
            ++ ["e"%char; if e <? 0 then "-"%char else "+"%char]
            ++ chars_of_digits (digits_of_nat (Z.abs_nat e))
      in
      if num_neg x then "-"%char :: body else body
  end.

Definition toString (x : number) : string :=
  string_of_list_ascii (toString_chars x).

(** The maximal prefix of decimal digits of a character sequence, and what
    follows it. *)
Fixpoint span_digits (cs : list ascii) : list digit * list ascii :=
  match cs with
  | [] => ([], [])
  | c :: r =>
      match char_digit c with
      | Some d => let (ds, rest) := span_digits r in (d :: ds, rest)
      | None => ([], cs)
      end
  end.

(** The characters after a run of digits do not start with a digit. *)
Definition digit_free_head (cs : list ascii) : Prop :=
  match cs with
  | [] => True
  | c :: _ => char_digit c = None
  end.

Fixpoint strip_leading_zeros (ds : list digit) (n : Z) : list digit * Z :=
  match ds with
  | dig0 :: r => strip_leading_zeros r (n - 1)
  | _ => (ds, n)
  end.

Fixpoint strip_trailing_zeros (ds : list digit) : list digit :=
  match ds with
  | [] => []
  | d :: r =>
      match strip_trailing_zeros r with
      | [] => if is_dig0 d then [] else [d]
      | r' => d :: r'
      end
  end.

(** The number denoted by the digit string [ds] scaled so that the decimal
    point sits [n] places to the right of its first digit. *)
Definition normalise (neg : bool) (ds : list digit) (n : Z) : number :=
  let (ds1, n1) := strip_leading_zeros ds n in
  match strip_trailing_zeros ds1 with
  | [] => zero
  | ds2 => mkNumber neg ds2 n1
  end.

(** The integer part of a JSON number: [0], or digits with no leading [0]. *)
Definition int_part_ok (ds : list digit) : bool :=
  match ds with
  | [] => false
  | [dig0] => true
  | dig0 :: _ => false
  | _ => true
  end.

(** The optional fraction [. digit+]. *)
Definition parse_frac (cs : list ascii) : option (list digit * list ascii) :=
  match cs with
  | c :: r =>
      if Ascii.eqb c "."%char then
        match span_digits r with
        | ([], _) => None
        | (ds, rest) => Some (ds, rest)
        end
      else Some ([], cs)
  | [] => Some ([], cs)
  end.

Definition parse_exp_digits (neg : bool) (cs : list ascii) : option (Z * list ascii) :=
  match span_digits cs with
  | ([], _) => None
  | (ds, rest) =>
      let e := Z.of_nat (nat_of_digits ds) in
      Some (if neg then - e else e, rest)
  end.

(** The optional exponent [(e|E) (+|-)? digit+]. *)
Definition parse_exp (cs : list ascii) : option (Z * list ascii) :=
  match cs with
  | c :: r =>
      if (Ascii.eqb c "e" || Ascii.eqb c "E")%char then
        match r with
        | c' :: r' =>
            if Ascii.eqb c' "-"%char then parse_exp_digits true r'
            else if Ascii.eqb c' "+"%char then parse_exp_digits false r'
            else parse_exp_digits false r
        | [] => None
        end
      else Some (0, cs)
  | [] => Some (0, cs)
  end.

(** The optional sign. *)
Definition parse_sign (cs : list ascii) : bool * list ascii :=
  match cs with
  | c :: r => if Ascii.eqb c "-"%char then (true, r) else (false, cs)
  | [] => (false, cs)
  end.

(** What follows the sign: integer part, fraction, exponent, end. *)
Definition parse_unsigned (neg : bool) (cs1 : list ascii) : option number :=
  let (ip, cs2) := span_digits cs1 in
  if int_part_ok ip then
    match parse_frac cs2 with
    | Some (fp, cs3) =>
        match parse_exp cs3 with
        | Some (e, []) =>
            Some (normalise neg (ip ++ fp) (Z.of_nat (List.length ip) + e))
        | _ => None
        end
    | None => None
    end
  else None.

(** A JSON number literal, read to the end of the characters. *)
Definition parse_chars (cs : list ascii) : option number :=
  let (neg, cs1) := parse_sign cs in parse_unsigned neg cs1.

Definition parse (s : string) : option number :=
  parse_chars (list_ascii_of_string s).

(** The number of an integer (an identifier, as a template literal renders
    it). *)
Definition of_digits_int (neg : bool) (ds : list digit) : number :=
  normalise neg ds (Z.of_nat (List.length ds)).

Definition of_Z (z : Z) : number :=
  match Z.to_int z with
  | Decimal.Pos u => of_digits_int false (digits_of_uint u)
  | Decimal.Neg u => of_digits_int true (digits_of_uint u)
  end.


End JsNumber.

(* ================================================================== *)
(** * JSON text of parameter bags *)

Module JSON.

Definition dquote : ascii := ascii_of_nat 34.
Definition backslash : ascii := ascii_of_nat 92.

(** A JavaScript object whose properties hold numbers, in property order. *)
Definition object : Type := list (string * JsNumber.number).

(** Property names are written between quotes as they are: the names of the
    parameter bags need no escape. *)
Definition member_chars (m : string * JsNumber.number) : list ascii :=
  dquote :: list_ascii_of_string (fst m)
    ++ dquote :: ":"%char :: JsNumber.toString_chars (snd m).

Fixpoint members_chars (o : object) : list ascii :=
  match o with
  | [] => []
  | [m] => member_chars m
  | m :: r => member_chars m ++ ","%char :: members_chars r
  end.

Definition stringify_chars (o : object) : list ascii :=
  "{"%char :: members_chars o ++ ["}"%char].

(** [JSON.stringify(o)] for such an object. *)
Definition stringify (o : object) : string :=
  string_of_list_ascii (stringify_chars o).

(** The characters of a property name up to its closing quote; a backslash
    (an escape) is outside this reader. *)
Fixpoint span_key (cs : list ascii) : option (list ascii * list ascii) :=
  match cs with
  | [] => None
  | c :: r =>
      if Ascii.eqb c dquote then Some ([], r)
      else if Ascii.eqb c backslash then None
      else match span_key r with
           | Some (k, rest) => Some (c :: k, rest)
           | None => None
           end
  end.

Definition is_number_char (c : ascii) : bool :=
  match JsNumber.char_digit c with
  | Some _ => true
  | None =>
      (Ascii.eqb c "-" || Ascii.eqb c "+" || Ascii.eqb c "."
       || Ascii.eqb c "e" || Ascii.eqb c "E")%char
  end.

Fixpoint span_number (cs : list ascii) : list ascii * list ascii :=
  match cs with
  | [] => ([], [])
  | c :: r =>
      if is_number_char c
      then let (tok, rest) := span_number r in (c :: tok, rest)
      else ([], cs)
  end.

Definition parse_member (cs : list ascii)
  : option ((string * JsNumber.number) * list ascii) :=
  match cs with
  | q :: r =>
      if Ascii.eqb q dquote then
        match span_key r with
        | Some (k, ":"%char :: r2) =>
            let (tok, rest) := span_number r2 in
            match JsNumber.parse_chars tok with
            | Some x => Some ((string_of_list_ascii k, x), rest)
            | None => None
            end
        | _ => None
        end
      else None
  | [] => None
  end.

(** The members after the opening brace, up to and including the closing
    one.  [fuel] bounds the number of members. *)
Fixpoint parse_members (fuel : nat) (cs : list ascii) : option object :=
  match fuel with
  | O => None
  | S fuel' =>
      match parse_member cs with
      | Some (m, ["}"%char]) => Some [m]
      | Some (m, ","%char :: r) =>
          match parse_members fuel' r with
          | Some o => Some (m :: o)
          | None => None
          end
      | _ => None
      end
  end.

Definition parse_chars (cs : list ascii) : option object :=
  match cs with
  | ["{"; "}"]%char => Some []
  | "{"%char :: r => parse_members (List.length r) r
  | _ => None
  end.

(** [JSON.parse(s)] for texts without white space whose value is an object of
    numbers; [None] is every other text. *)
Definition parse (s : string) : option object :=
  parse_chars (list_ascii_of_string s).

(** A character [JSON.stringify] writes as it is inside a string. *)
Definition plain_char (c : ascii) : bool :=
  negb (Ascii.eqb c dquote) && negb (Ascii.eqb c backslash)
    && (32 <=? nat_of_ascii c)%nat.

Definition plain_key (k : string) : bool :=
  forallb plain_char (list_ascii_of_string k).

(** What follows a number token: nothing, or a character no number holds. *)
Definition number_free_head (cs : list ascii) : Prop :=
  match cs with
  | [] => True
  | c :: _ => is_number_char c = false
  end.

(** A member whose name needs no escape and whose number is well formed. *)
Definition member_ok (m : string * JsNumber.number) : Prop :=
  plain_key (fst m) = true /\ JsNumber.canonical (snd m).

(** Look a property up by name. *)
Fixpoint get (o : object) (k : string) : option JsNumber.number :=
  match o with
  | [] => None
  | (k', x) :: r => if String.eqb k' k then Some x else get r k
  end.

(** A property that is [undefined] is left out of the text. *)
Definition prop (k : string) (v : option JsNumber.number) : object :=
  match v with
  | Some x => [(k, x)]
  | None => []
  end.

End JSON.

(* ================================================================== *)
(** * Rows ([server/src/db/schema.ts]; [server/src/schema.ts], source:
      [src/unnamed/part_010]) *)

Inductive AIOperationType : Type :=
| object_removal | style_transfer | image_modification.

Inductive AIOperationStatus : Type :=
| pending | processing | completed | failed.

(** A row of [imagesTable]. *)
Record Image : Type := mkImage {
  img_id : Z;
  img_filename : string;
  img_original_filename : string;
  img_file_path : string;
  img_file_size : Z;
  img_mime_type : string;
  img_width : Z;
  img_height : Z;
  img_created_at : Z;
  img_updated_at : Z
}.

(** A row of [aiOperationsTable]; a nullable column is an [option]. *)
Record AIOperation : Type := mkAIOperation {
  op_id : Z;
  op_image_id : Z;
  op_operation_type : AIOperationType;
  op_status : AIOperationStatus;
  op_prompt : option string;
  op_mask_data : option string;
  op_parameters : option string;
  op_result_image_path : option string;
  op_error_message : option string;
  op_processing_time : option JsNumber.number;
  op_created_at : Z;
  op_updated_at : Z
}.

(** A row of [projectsTable]. *)
Record Project : Type := mkProject {
  prj_id : Z;
  prj_name : string;
  prj_description : option string;
  prj_original_image_id : Z;
  prj_current_image_path : string;
  prj_operations_history : string;
  prj_is_public : bool;
  prj_created_at : Z;
  prj_updated_at : Z
}.

(** The values of an insert into [aiOperationsTable] (the columns the three
    creation handlers supply; [id] and the timestamps are generated). *)
Record NewAIOperation : Type := mkNewAIOperation {
  new_image_id : Z;
  new_operation_type : AIOperationType;
  new_status : AIOperationStatus;
  new_prompt : option string;
  new_mask_data : option string;
  new_parameters : option string;
  new_result_image_path : option string;
  new_error_message : option string;
  new_processing_time : option JsNumber.number
}.

(** The values of an insert into [projectsTable]. *)
Record NewProject : Type := mkNewProject {
  newp_name : string;
  newp_description : option string;
  newp_original_image_id : Z;
  newp_current_image_path : string;
  newp_operations_history : string;
  newp_is_public : bool
}.

(* ================================================================== *)
(** * Handler inputs ([server/src/schema.ts], source: [src/unnamed/part_010]) *)

Record UploadImageInput : Type := mkUploadImageInput {
  up_filename : string;
  up_original_filename : string;
  up_file_path : string;
  up_file_size : Z;
  up_mime_type : string;
  up_width : Z;
  up_height : Z
}.

(** [uploadImageInputSchema]: the size and both dimensions are positive. *)
Definition uploadImageInputSchema (i : UploadImageInput) : bool :=
  (0 <? up_file_size i) && (0 <? up_width i) && (0 <? up_height i).

(** The parameter bags.  A property that is absent is [None]; the properties
    are kept in the order of the schema's shape. *)
Record ObjectRemovalParameters : Type := mkObjectRemovalParameters {
  orp_inpaint_strength : option JsNumber.number;
  orp_guidance_scale : option JsNumber.number
}.

Record StyleTransferParameters : Type := mkStyleTransferParameters {
  stp_style_strength : option JsNumber.number;
  stp_guidance_scale : option JsNumber.number;
  stp_num_inference_steps : option JsNumber.number
}.

Record ImageModificationParameters : Type := mkImageModificationParameters {
  imp_modification_strength : option JsNumber.number;
  imp_guidance_scale : option JsNumber.number;
  imp_num_inference_steps : option JsNumber.number
}.

Record ObjectRemovalInput : Type := mkObjectRemovalInput {
  or_image_id : Z;
  or_mask_data : string;
  or_parameters : option ObjectRemovalParameters
}.

Record StyleTransferInput : Type := mkStyleTransferInput {
  st_image_id : Z;
  st_prompt : string;
  st_parameters : option StyleTransferParameters
}.

Record ImageModificationInput : Type := mkImageModificationInput {
  im_image_id : Z;
  im_prompt : string;
  im_mask_data : option string;
  im_parameters : option ImageModificationParameters
}.

Record CreateProjectInput : Type := mkCreateProjectInput {
  cp_name : string;
  cp_description : option string;
  cp_original_image_id : Z;
  cp_is_public : bool
}.

(** [description] may be absent ([None]), [null] ([Some None]) or a string. *)
Record UpdateProjectInput : Type := mkUpdateProjectInput {
  upd_id : Z;
  upd_name : option string;
  upd_description : option (option string);
  upd_current_image_path : option string;
  upd_operations_history : option string;
  upd_is_public : option bool
}.

Record ListProjectsInput : Type := mkListProjectsInput {
  lp_limit : Z;
  lp_offset : Z;
  lp_public_only : bool
}.

(** [listProjectsInputSchema]: [limit] in 1..100 and [offset] at least 0. *)
Definition listProjectsInputSchema (i : ListProjectsInput) : bool :=
  (1 <=? lp_limit i) && (lp_limit i <=? 100) && (0 <=? lp_offset i).

Record ListProjectsResult : Type := mkListProjectsResult {
  projects : list Project;
  total : Z
}.

(** The objects handed to [JSON.stringify]. *)
Definition ObjectRemovalParameters_object (p : ObjectRemovalParameters) : JSON.object :=
  JSON.prop "inpaint_strength" (orp_inpaint_strength p)
    ++ JSON.prop "guidance_scale" (orp_guidance_scale p).

Definition StyleTransferParameters_object (p : StyleTransferParameters) : JSON.object :=
  JSON.prop "style_strength" (stp_style_strength p)
    ++ JSON.prop "guidance_scale" (stp_guidance_scale p)
    ++ JSON.prop "num_inference_steps" (stp_num_inference_steps p).

Definition ImageModificationParameters_object (p : ImageModificationParameters) : JSON.object :=
  JSON.prop "modification_strength" (imp_modification_strength p)
    ++ JSON.prop "guidance_scale" (imp_guidance_scale p)
    ++ JSON.prop "num_inference_steps" (imp_num_inference_steps p).

(** Reading a parsed object back as a bag. *)
Definition ObjectRemovalParameters_of_object (o : JSON.object) : ObjectRemovalParameters :=
  mkObjectRemovalParameters
    (JSON.get o "inpaint_strength") (JSON.get o "guidance_scale").

Definition StyleTransferParameters_of_object (o : JSON.object) : StyleTransferParameters :=
  mkStyleTransferParameters
    (JSON.get o "style_strength") (JSON.get o "guidance_scale")
    (JSON.get o "num_inference_steps").

Definition ImageModificationParameters_of_object (o : JSON.object) : ImageModificationParameters :=
  mkImageModificationParameters
    (JSON.get o "modification_strength") (JSON.get o "guidance_scale")
    (JSON.get o "num_inference_steps").

(* ================================================================== *)
(** * The store *)

Record DB : Type := mkDB {
  imagesTable : list Image;
  images_id_seq : Z;
  aiOperationsTable : list AIOperation;
  ai_operations_id_seq : Z;
  projectsTable : list Project;
  projects_id_seq : Z
}.

(** The store after [createDB]: empty tables, every sequence at 1. *)
Definition empty_db : DB := mkDB [] 1 [] 1 [] 1.

Definition Handler (A : Type) : Type := DB -> outcome A * DB.

Definition ret {A : Type} (a : A) : Handler A :=
  fun db => (Returned a, db).

Definition throw {A : Type} (message : string) : Handler A :=
  fun db => (Thrown message, db).

Definition bind {A B : Type} (c : Handler A) (k : A -> Handler B) : Handler B :=
  fun db =>
    match c db with
    | (Returned a, db') => k a db'
    | (Thrown message, db') => (Thrown message, db')
    end.

Notation "x <- c ;; k" := (bind c (fun x => k))
  (at level 61, c at next level, right associativity).

(** ** Statements *)

(** [db.select().from(imagesTable).where(eq(imagesTable.id, id))] *)
Definition select_images_where_id (id : Z) : Handler (list Image) :=
  fun db => (Returned (filter (fun r => img_id r =? id) (imagesTable db)), db).

(** [db.select().from(aiOperationsTable).where(eq(aiOperationsTable.id, id))] *)
Definition select_ai_operations_where_id (id : Z) : Handler (list AIOperation) :=
  fun db => (Returned (filter (fun r => op_id r =? id) (aiOperationsTable db)), db).

(** [db.select().from(projectsTable).where(eq(projectsTable.id, id))] *)
Definition select_projects_where_id (id : Z) : Handler (list Project) :=
  fun db => (Returned (filter (fun r => prj_id r =? id) (projectsTable db)), db).

(** [db.insert(imagesTable).values(v).returning()]: the row gets the next
    value of the sequence and [defaultNow()] in both timestamps; [result[0]]
    is that row. *)
Definition insert_images (now : Z) (v : UploadImageInput) : Handler Image :=
  fun db =>
    let row :=
      mkImage (images_id_seq db) (up_filename v) (up_original_filename v)
        (up_file_path v) (up_file_size v) (up_mime_type v) (up_width v)
        (up_height v) now now in
    (Returned row,
     mkDB (imagesTable db ++ [row]) (images_id_seq db + 1)
       (aiOperationsTable db) (ai_operations_id_seq db)
       (projectsTable db) (projects_id_seq db)).

(** [db.insert(aiOperationsTable).values(v).returning()] *)
Definition insert_ai_operations (now : Z) (v : NewAIOperation) : Handler AIOperation :=
  fun db =>
    let row :=
      mkAIOperation (ai_operations_id_seq db) (new_image_id v)
        (new_operation_type v) (new_status v) (new_prompt v) (new_mask_data v)
        (new_parameters v) (new_result_image_path v) (new_error_message v)
        (new_processing_time v) now now in
    (Returned row,
     mkDB (imagesTable db) (images_id_seq db)
       (aiOperationsTable db ++ [row]) (ai_operations_id_seq db + 1)
       (projectsTable db) (projects_id_seq db)).

(** [db.insert(projectsTable).values(v).returning()] *)
Definition insert_projects (now : Z) (v : NewProject) : Handler Project :=
  fun db =>
    let row :=
      mkProject (projects_id_seq db) (newp_name v) (newp_description v)
        (newp_original_image_id v) (newp_current_image_path v)
        (newp_operations_history v) (newp_is_public v) now now in
    (Returned row,
     mkDB (imagesTable db) (images_id_seq db)
       (aiOperationsTable db) (ai_operations_id_seq db)
       (projectsTable db ++ [row]) (projects_id_seq db + 1)).

(** ** Small pieces of the handlers *)

(** The template literal [`Image with id ${id} not found`]. *)
Definition image_not_found (id : Z) : string :=
  ("Image with id " ++ JsNumber.toString (JsNumber.of_Z id) ++ " not found")%string.

(** [parseFloat] on the text of a number. *)
Definition parseFloat (s : string) : option JsNumber.number := JsNumber.parse s.

(** [x ? parseFloat(x.toString()) : null]: the truthiness test sends [null]
    and [0] to [null]. *)
Definition coerce_processing_time (pt : option JsNumber.number)
  : option JsNumber.number :=
  match pt with
  | Some x => if JsNumber.is_zero x then None else parseFloat (JsNumber.toString x)
  | None => None
  end.

(** [x !== null ? parseFloat(String(x)) : null] *)
Definition coerce_processing_time_not_null (pt : option JsNumber.number)
  : option JsNumber.number :=
  match pt with
  | Some x => parseFloat (JsNumber.toString x)
  | None => None
  end.

(** [{ ...operation, processing_time: pt }] *)
Definition with_processing_time (operation : AIOperation)
    (pt : option JsNumber.number) : AIOperation :=
  mkAIOperation (op_id operation) (op_image_id operation)
    (op_operation_type operation) (op_status operation) (op_prompt operation)
    (op_mask_data operation) (op_parameters operation)
    (op_result_image_path operation) (op_error_message operation)
    pt (op_created_at operation) (op_updated_at operation).

(** [s || null] on a string that may be absent: the empty string is falsy. *)
Definition string_or_null (s : option string) : option string :=
  match s with
  | Some v => if String.eqb v EmptyString then None else Some v
  | None => None
  end.

(** [JSON.stringify([])] *)
Definition JSON_stringify_empty_array : string := "[]".

(* ================================================================== *)
(** * Handlers *)

(** [uploadImage] (source: [src/unnamed/part_003], lines 5-39). *)
Definition uploadImage (now : Z) (input : UploadImageInput) : Handler Image :=
  image <- insert_images now
             (mkUploadImageInput (up_filename input) (up_original_filename input)
                (up_file_path input) (up_file_size input) (up_mime_type input)
                (up_width input) (up_height input)) ;;
  ret (mkImage (img_id image) (img_filename image) (img_original_filename image)
         (img_file_path image) (img_file_size image) (img_mime_type image)
         (img_width image) (img_height image) (img_created_at image)
         (img_updated_at image)).

(** [getImage] (source: [src/unnamed/part_005], lines 6-25). *)
Definition getImage (imageId : Z) : Handler (option Image) :=
  results <- select_images_where_id imageId ;;
  match results with
  | [] => ret None
  | image :: _ => ret (Some image)
  end.

(** [removeObject] (source: [src/unnamed/part_004], lines 6-48). *)
Definition removeObject (now : Z) (input : ObjectRemovalInput) : Handler AIOperation :=
  existingImages <- select_images_where_id (or_image_id input) ;;
  if (List.length existingImages =? 0)%nat then
    throw (image_not_found (or_image_id input))
  else
    let parametersJson :=
      match or_parameters input with
      | Some p => Some (JSON.stringify (ObjectRemovalParameters_object p))
      | None => None
      end in
    operation <- insert_ai_operations now
                   (mkNewAIOperation (or_image_id input) object_removal pending
                      None (Some (or_mask_data input)) parametersJson
                      None None None) ;;
    ret (with_processing_time operation
           (coerce_processing_time (op_processing_time operation))).

(** [applyStyleTransfer] (source: [server/src/handlers/apply_style_transfer.ts],
    lines 6-47). *)
Definition applyStyleTransfer (now : Z) (input : StyleTransferInput) : Handler AIOperation :=
  existingImage <- select_images_where_id (st_image_id input) ;;
  if (List.length existingImage =? 0)%nat then
    throw (image_not_found (st_image_id input))
  else
    let parametersJson :=
      match st_parameters input with
      | Some p => Some (JSON.stringify (StyleTransferParameters_object p))
      | None => None
      end in
    operation <- insert_ai_operations now
                   (mkNewAIOperation (st_image_id input) style_transfer pending
                      (Some (st_prompt input)) None parametersJson
                      None None None) ;;
    ret (with_processing_time operation
           (coerce_processing_time (op_processing_time operation))).

(** [modifyImage] (source: [src/unnamed/part_008], lines 6-47). *)
Definition modifyImage (now : Z) (input : ImageModificationInput) : Handler AIOperation :=
  existingImages <- select_images_where_id (im_image_id input) ;;
  if (List.length existingImages =? 0)%nat then
    throw (image_not_found (im_image_id input))
  else
    let parametersJson :=
      match im_parameters input with
      | Some p => Some (JSON.stringify (ImageModificationParameters_object p))
      | None => None
      end in
    operation <- insert_ai_operations now
                   (mkNewAIOperation (im_image_id input) image_modification pending
                      (Some (im_prompt input)) (string_or_null (im_mask_data input))
                      parametersJson None None None) ;;
    ret (with_processing_time operation
           (coerce_processing_time (op_processing_time operation))).

(** [getOperationResult] (source:
    [server/src/handlers/get_operation_result.ts], lines 6-30). *)
Definition getOperationResult (operationId : Z) : Handler (option AIOperation) :=
  results <- select_ai_operations_where_id operationId ;;
  match results with
  | [] => ret None
  | operation :: _ =>
      ret (Some (with_processing_time operation
                   (coerce_processing_time (op_processing_time operation))))
  end.

(** [.orderBy(desc(aiOperationsTable.created_at))], as a stable insertion
    sort: rows of equal [created_at] keep their table order. *)
Fixpoint insert_desc (x : AIOperation) (l : list AIOperation) : list AIOperation :=
  match l with
  | [] => [x]
  | y :: r =>
      if op_created_at y <=? op_created_at x then x :: l
      else y :: insert_desc x r
  end.

Definition orderBy_desc_created_at (l : list AIOperation) : list AIOperation :=
  fold_right insert_desc [] l.

(** [listOperations] (source: [src/unnamed/part_002], lines 6-32); [imageId]
    is [None] when the argument is [undefined]. *)
Definition listOperations (imageId : option Z) : Handler (list AIOperation) :=
  fun db =>
    let baseQuery := aiOperationsTable db in
    let query :=
      match imageId with
      | Some id => filter (fun r => op_image_id r =? id) baseQuery
      | None => baseQuery
      end in
    let results := orderBy_desc_created_at query in
    (Returned
       (map (fun operation =>
               with_processing_time operation
                 (coerce_processing_time_not_null (op_processing_time operation)))
            results),
     db).

(** [createProject] (source: [src/unnamed/part_002], lines 38-71). *)
Definition createProject (now : Z) (input : CreateProjectInput) : Handler Project :=
  existingImage <- select_images_where_id (cp_original_image_id input) ;;
  match existingImage with
  | [] => throw (image_not_found (cp_original_image_id input))
  | imageRecord :: _ =>
      project <- insert_projects now
                   (mkNewProject (cp_name input)
                      (string_or_null (cp_description input))
                      (cp_original_image_id input)
                      (img_file_path imageRecord)
                      JSON_stringify_empty_array
                      (cp_is_public input || false)) ;;
      ret project
  end.

(** [getProject] (source: [src/unnamed/part_001], lines 6-32). *)
Definition getProject (projectId : Z) : Handler (option Project) :=
  results <- select_projects_where_id projectId ;;
  match results with
  | [] => ret None
  | project :: _ =>
      ret (Some (mkProject (prj_id project) (prj_name project)
                   (prj_description project) (prj_original_image_id project)
                   (prj_current_image_path project)
                   (prj_operations_history project) (prj_is_public project)
                   (prj_created_at project) (prj_updated_at project)))
  end.

(** [.limit(n).offset(m)] on the rows of a query. *)
Definition limit_offset {A : Type} (limit offset : Z) (rows : list A) : list A :=
  firstn (Z.to_nat limit) (skipn (Z.to_nat offset) rows).

(** [listProjects] (source: [src/unnamed/part_006], lines 23-63): the page
    and the count are two queries over the same condition. *)
Definition listProjects (input : ListProjectsInput) : Handler ListProjectsResult :=
  fun db =>
    if lp_public_only input then
      let page :=
        limit_offset (lp_limit input) (lp_offset input)
          (filter (fun p => Bool.eqb (prj_is_public p) true) (projectsTable db)) in
      let count :=
        Z.of_nat (List.length
          (filter (fun p => Bool.eqb (prj_is_public p) true) (projectsTable db))) in
      (Returned (mkListProjectsResult page count), db)
    else
      let page :=
        limit_offset (lp_limit input) (lp_offset input) (projectsTable db) in
      let count := Z.of_nat (List.length (projectsTable db)) in
      (Returned (mkListProjectsResult page count), db).

(** ** [updateProject] *)

Definition or_else {A : Type} (supplied : option A) (stored : A) : A :=
  match supplied with
  | Some v => v
  | None => stored
  end.

(** Modelled from the spec: the body of [updateProject]
    ([handlers/update_project.ts]) is missing; the file holds only the
    placeholder declaration, which resolves to [null] without a query, while
    its test suite exercises the stored rows.  Section 4.4 of the spec:
    fields not present in the input are left untouched; the update timestamp
    is always refreshed. *)
Definition apply_update (now : Z) (input : UpdateProjectInput) (p : Project) : Project :=
  mkProject (prj_id p)
    (or_else (upd_name input) (prj_name p))
    (or_else (upd_description input) (prj_description p))
    (prj_original_image_id p)
    (or_else (upd_current_image_path input) (prj_current_image_path p))
    (or_else (upd_operations_history input) (prj_operations_history p))
    (or_else (upd_is_public input) (prj_is_public p))
    (prj_created_at p)
    now.

(** Modelled from the spec: the update statement of the missing
    [updateProject] body, [update projects set ... where id = input.id
    returning *]. *)
Definition update_projects_where_id (now : Z) (input : UpdateProjectInput)
  : Handler (list Project) :=
  fun db =>
    let updated :=
      map (fun p => if prj_id p =? upd_id input then apply_update now input p else p)
        (projectsTable db) in
    (Returned (filter (fun p => prj_id p =? upd_id input) updated),
     mkDB (imagesTable db) (images_id_seq db)
       (aiOperationsTable db) (ai_operations_id_seq db)
       updated (projects_id_seq db)).

(** Modelled from the spec: [updateProject], section 4.4: returns the
    updated row, or [null] if the id does not match any project; no error is
    raised for a missing id. *)
Definition updateProject (now : Z) (input : UpdateProjectInput) : Handler (option Project) :=
  result <- update_projects_where_id now input ;;
  match result with
  | [] => ret None
  | project :: _ => ret (Some project)
  end.

(** ** Invariants of the store *)

Definition number_ok (x : option JsNumber.number) : Prop :=
  match x with
  | Some v => JsNumber.canonical v
  | None => True
  end.

(** What the primary keys, their sequences and the representation of numbers
    guarantee in every store the handlers can reach. *)
Record store_ok (db : DB) : Prop := mkStoreOk {
  images_below_seq : forall r, In r (imagesTable db) -> img_id r < images_id_seq db;
  images_key : NoDup (map img_id (imagesTable db));
  operations_below_seq :
    forall r, In r (aiOperationsTable db) -> op_id r < ai_operations_id_seq db;
  operations_key : NoDup (map op_id (aiOperationsTable db));
  operations_numbers :
    forall r, In r (aiOperationsTable db) -> number_ok (op_processing_time r);
  projects_below_seq :
    forall r, In r (projectsTable db) -> prj_id r < projects_id_seq db;
  projects_key : NoDup (map prj_id (projectsTable db))
}.


(** ** Vocabulary of the statements *)

Definition image_exists (db : DB) (id : Z) : Prop :=
  exists r, In r (imagesTable db) /\ img_id r = id.




(** An operation nobody has processed yet. *)
Definition pending_unprocessed (op : AIOperation) : Prop :=
  op_status op = pending
  /\ op_result_image_path op = None
  /\ op_error_message op = None
  /\ op_processing_time op = None.


(** The rows a [listOperations] query is about. *)
Definition operations_of (imageId : option Z) (db : DB) : list AIOperation :=
  match imageId with
  | Some id => filter (fun r => op_image_id r =? id) (aiOperationsTable db)
  | None => aiOperationsTable db
  end.

(** The rows a [listProjects] query is about. *)
Definition projects_of (public_only : bool) (db : DB) : list Project :=
  if public_only then filter prj_is_public (projectsTable db)
  else projectsTable db.

Definition ObjectRemovalParameters_ok (p : ObjectRemovalParameters) : Prop :=
  number_ok (orp_inpaint_strength p) /\ number_ok (orp_guidance_scale p).

Definition StyleTransferParameters_ok (p : StyleTransferParameters) : Prop :=
  number_ok (stp_style_strength p) /\ number_ok (stp_guidance_scale p)
  /\ number_ok (stp_num_inference_steps p).

Definition ImageModificationParameters_ok (p : ImageModificationParameters) : Prop :=
  number_ok (imp_modification_strength p) /\ number_ok (imp_guidance_scale p)
  /\ number_ok (imp_num_inference_steps p).

(** ** A small store to evaluate the handlers on *)

Module Sample.

Definition photo : Image :=
  mkImage 1 "test-image.jpg" "original-test.jpg" "/uploads/test-image.jpg"
    1024000 "image/jpeg" 1920 1080 1000 1000.

Definition one_image : DB := mkDB [photo] 2 [] 1 [] 1.

Definition upload : UploadImageInput :=
  mkUploadImageInput "test-image-123.jpg" "my-photo.jpg"
    "/uploads/images/test-image-123.jpg" 1048576 "image/jpeg" 1920 1080.

(** 0.9 and 10 *)
Definition n0_9 : JsNumber.number := JsNumber.mkNumber false [JsNumber.dig9] 0.
Definition n10 : JsNumber.number := JsNumber.mkNumber false [JsNumber.dig1] 2.

Definition removal_bag : ObjectRemovalParameters :=
  mkObjectRemovalParameters (Some n0_9) (Some n10).

Definition project (id : Z) (is_public : bool) (updated_at : Z) : Project :=
  mkProject id "Test Project" (Some "A test project"%string) 1
    "/uploads/test-image.jpg" "[]" is_public 1000 updated_at.


Definition operation (id created_at : Z) : AIOperation :=
  mkAIOperation id 1 style_transfer pending (Some "Test prompt"%string) None None
    None None None created_at created_at.

Definition three_operations : DB :=
  mkDB [photo] 2 [operation 1 1000; operation 2 1010; operation 3 1020] 4 [] 1.

End Sample.

(* ================================================================== *)
(** * Comparing numbers *)

Module JsArith.

(** [x = mantissa x * 10 ^ scale x]. *)
Definition mantissa (x : JsNumber.number) : Z :=
  let m := Z.of_uint (JsNumber.uint_of_digits (JsNumber.num_digits x)) in
  if JsNumber.num_neg x then - m else m.

Definition scale (x : JsNumber.number) : Z :=
  JsNumber.num_exp x - Z.of_nat (List.length (JsNumber.num_digits x)).

(** [x <= y], both brought to the smaller of the two scales. *)
Definition leb (x y : JsNumber.number) : bool :=
  let m := Z.min (scale x) (scale y) in
  mantissa x * 10 ^ (scale x - m) <=? mantissa y * 10 ^ (scale y - m).

(** [Number.isInteger(x)] *)
Definition is_integer (x : JsNumber.number) : bool :=
  (0 <=? scale x) || (mantissa x mod 10 ^ (- scale x) =? 0).

(** The integer an integral number stands for. *)
Definition to_Z (x : JsNumber.number) : Z :=
  if 0 <=? scale x then mantissa x * 10 ^ scale x
  else mantissa x / 10 ^ (- scale x).

End JsArith.

(* ================================================================== *)
(** * Request validation ([server/src/schema.ts], source:
      [src/unnamed/part_010]) *)

Module Schema.

(** The constants of the schemas: 0, 0.7, 0.8, 1, 7.5, 10, 20, 50, 100. *)
Definition n0 : JsNumber.number := JsNumber.zero.
Definition n0_7 : JsNumber.number := JsNumber.mkNumber false [JsNumber.dig7] 0.
Definition n0_8 : JsNumber.number := JsNumber.mkNumber false [JsNumber.dig8] 0.
Definition n1 : JsNumber.number := JsNumber.mkNumber false [JsNumber.dig1] 1.
Definition n7_5 : JsNumber.number :=
  JsNumber.mkNumber false [JsNumber.dig7; JsNumber.dig5] 1.
Definition n10 : JsNumber.number := JsNumber.mkNumber false [JsNumber.dig1] 2.
Definition n20 : JsNumber.number := JsNumber.mkNumber false [JsNumber.dig2] 2.
Definition n50 : JsNumber.number := JsNumber.mkNumber false [JsNumber.dig5] 2.
Definition n100 : JsNumber.number := JsNumber.mkNumber false [JsNumber.dig1] 3.

Definition at_least (min : option JsNumber.number) (v : JsNumber.number) : bool :=
  match min with
  | Some lo => JsArith.leb lo v
  | None => true
  end.

Definition at_most (max : option JsNumber.number) (v : JsNumber.number) : bool :=
  match max with
  | Some hi => JsArith.leb v hi
  | None => true
  end.

(** [z.number()[.int()][.min(lo)][.max(hi)].optional().default(d)]: an absent
    value is replaced by the default, and the value is then checked. *)
Definition number_with_default (int : bool) (min max : option JsNumber.number)
    (default : JsNumber.number) (raw : option JsNumber.number)
  : option JsNumber.number :=
  let v := match raw with Some v => v | None => default end in
  if (if int then JsArith.is_integer v else true) && at_least min v && at_most max v
  then Some v else None.

(** The [parameters] object of [objectRemovalInputSchema] (lines 73-76). *)
Definition objectRemovalParameters (raw : ObjectRemovalParameters)
  : option ObjectRemovalParameters :=
  match number_with_default false (Some n0) (Some n1) n0_8 (orp_inpaint_strength raw),
        number_with_default false (Some n1) (Some n20) n7_5 (orp_guidance_scale raw) with
  | Some a, Some b => Some (mkObjectRemovalParameters (Some a) (Some b))
  | _, _ => None
  end.

(** The [parameters] object of [styleTransferInputSchema] (lines 85-89). *)
Definition styleTransferParameters (raw : StyleTransferParameters)
  : option StyleTransferParameters :=
  match number_with_default false (Some n0) (Some n1) n0_7 (stp_style_strength raw),
        number_with_default false (Some n1) (Some n20) n7_5 (stp_guidance_scale raw),
        number_with_default true (Some n10) (Some n100) n50
          (stp_num_inference_steps raw) with
  | Some a, Some b, Some c => Some (mkStyleTransferParameters (Some a) (Some b) (Some c))
  | _, _, _ => None
  end.

(** The [parameters] object of [imageModificationInputSchema] (lines 99-103). *)
Definition imageModificationParameters (raw : ImageModificationParameters)
  : option ImageModificationParameters :=
  match number_with_default false (Some n0) (Some n1) n0_8
          (imp_modification_strength raw),
        number_with_default false (Some n1) (Some n20) n7_5 (imp_guidance_scale raw),
        number_with_default true (Some n10) (Some n100) n50
          (imp_num_inference_steps raw) with
  | Some a, Some b, Some c =>
      Some (mkImageModificationParameters (Some a) (Some b) (Some c))
  | _, _, _ => None
  end.

(** [objectRemovalInputSchema] (lines 70-77) on a request whose [image_id]
    is an integer and whose [mask_data] is a string: [None] is a rejected
    request. *)
Definition objectRemovalInput (raw : ObjectRemovalInput) : option ObjectRemovalInput :=
  match or_parameters raw with
  | None => Some (mkObjectRemovalInput (or_image_id raw) (or_mask_data raw) None)
  | Some bag =>
      match objectRemovalParameters bag with
      | Some parsed =>
          Some (mkObjectRemovalInput (or_image_id raw) (or_mask_data raw) (Some parsed))
      | None => None
      end
  end.

(** [styleTransferInputSchema] (lines 82-90). *)
Definition styleTransferInput (raw : StyleTransferInput) : option StyleTransferInput :=
  match st_parameters raw with
  | None => Some (mkStyleTransferInput (st_image_id raw) (st_prompt raw) None)
  | Some bag =>
      match styleTransferParameters bag with
      | Some parsed =>
          Some (mkStyleTransferInput (st_image_id raw) (st_prompt raw) (Some parsed))
      | None => None
      end
  end.

(** [imageModificationInputSchema] (lines 95-104). *)
Definition imageModificationInput (raw : ImageModificationInput)
  : option ImageModificationInput :=
  match im_parameters raw with
  | None =>
      Some (mkImageModificationInput (im_image_id raw) (im_prompt raw)
              (im_mask_data raw) None)
  | Some bag =>
      match imageModificationParameters bag with
      | Some parsed =>
          Some (mkImageModificationInput (im_image_id raw) (im_prompt raw)
                  (im_mask_data raw) (Some parsed))
      | None => None
      end
  end.

(** The request of [listProjects] before validation: every field may be
    absent. *)
Record ListProjectsQuery : Type := mkListProjectsQuery {
  q_limit : option JsNumber.number;
  q_offset : option JsNumber.number;
  q_public_only : option bool
}.

(** [listProjectsInputSchema] (lines 153-157) as a parser. *)
Definition listProjectsInput (raw : ListProjectsQuery) : option ListProjectsInput :=
  match number_with_default true (Some n1) (Some n100) n20 (q_limit raw),
        number_with_default true (Some n0) None n0 (q_offset raw) with
  | Some limit, Some offset =>
      Some (mkListProjectsInput (JsArith.to_Z limit) (JsArith.to_Z offset)
              (match q_public_only raw with Some b => b | None => false end))
  | _, _ => None
  end.

(** [uploadImageInputSchema] (lines 20-28) as a parser, on a request whose
    numbers are integers. *)
Definition uploadImageInput (raw : UploadImageInput) : option UploadImageInput :=
  if uploadImageInputSchema raw then Some raw else None.

End Schema.

(* ================================================================== *)
(** * The router ([server/src/index.ts], lines 40-93) *)

(** What a procedure answers: the request is rejected by its input schema
    before the handler runs, or the handler's outcome. *)
Inductive response (A : Type) : Type :=
| Rejected
| Handled (result : outcome A).

Arguments Rejected {A}.
Arguments Handled {A} result.

(** [publicProcedure.input(schema).mutation(({ input }) => handler(input))] *)
Definition procedure {R I A : Type} (schema : R -> option I)
    (handler : I -> Handler A) (raw : R) : DB -> response A * DB :=
  fun db =>
    match schema raw with
    | Some input => let (result, db') := handler input db in (Handled result, db')
    | None => (Rejected, db)
    end.

Module appRouter.

Definition uploadImage (now : Z) := procedure Schema.uploadImageInput (uploadImage now).
Definition removeObject (now : Z) := procedure Schema.objectRemovalInput (removeObject now).
Definition applyStyleTransfer (now : Z) :=
  procedure Schema.styleTransferInput (applyStyleTransfer now).
Definition modifyImage (now : Z) :=
  procedure Schema.imageModificationInput (modifyImage now).
Definition listProjects := procedure Schema.listProjectsInput listProjects.

End appRouter.

(* ================================================================== *)
(** * The placeholder declarations of the creation handlers *)

Module Placeholder.

(** [removeObject] ([server/src/handlers/remove_object.ts], lines 3-31);
    [now] is [new Date()]. *)
Definition removeObject (now : Z) (input : ObjectRemovalInput) : Handler AIOperation :=
  let parametersJson :=
    match or_parameters input with
    | Some p => Some (JSON.stringify (ObjectRemovalParameters_object p))
    | None => None
    end in
  ret (mkAIOperation 1 (or_image_id input) object_removal pending None
         (Some (or_mask_data input)) parametersJson None None None now now).

(** [applyStyleTransfer] ([src/unnamed/part_001], lines 35-63). *)
Definition applyStyleTransfer (now : Z) (input : StyleTransferInput) : Handler AIOperation :=
  let parametersJson :=
    match st_parameters input with
    | Some p => Some (JSON.stringify (StyleTransferParameters_object p))
    | None => None
    end in
  ret (mkAIOperation 2 (st_image_id input) style_transfer pending
         (Some (st_prompt input)) None parametersJson None None None now now).

(** [modifyImage] ([src/unnamed/part_007], lines 3-32). *)
Definition modifyImage (now : Z) (input : ImageModificationInput) : Handler AIOperation :=
  let parametersJson :=
    match im_parameters input with
    | Some p => Some (JSON.stringify (ImageModificationParameters_object p))
    | None => None
    end in
  ret (mkAIOperation 3 (im_image_id input) image_modification pending
         (Some (im_prompt input)) (string_or_null (im_mask_data input))
         parametersJson None None None now now).

End Placeholder.


(* ================================================================== *)
(** * The client's polling loop
      ([client/src/components/ProjectManager.tsx], lines 518-561) *)

Module Client.

(** The pieces of component state the loop writes. *)
Record State : Type := mkState {
  operations : list AIOperation;
  isLoading : bool;
  error : string;
  currentImageSrc : string
}.

Definition maxAttempts : nat := 60.

(** [if (s)] on a string that may be [null]. *)
Definition truthy (s : option string) : bool :=
  match s with
  | Some v => negb (String.eqb v EmptyString)
  | None => false
  end.

(** [prev.map(op => op.id === operationId ? result : op)] *)
Definition replace_operation (operationId : Z) (result : AIOperation)
    (prev : list AIOperation) : list AIOperation :=
  map (fun op => if op_id op =? operationId then result else op) prev.

(** [poll]: the query number [attempts] is answered from the store
    [server attempts]; the second component is the number of queries made.
    [fuel] bounds the re-arming of the timer. *)
Fixpoint poll (fuel : nat) (server : nat -> DB) (operationId : Z)
    (attempts : nat) (st : State) : State * nat :=
  match fuel with
  | O => (st, attempts)
  | S fuel' =>
      let next (st1 : State) :=
        if (S attempts <? maxAttempts)%nat
        then poll fuel' server operationId (S attempts) st1
        else (mkState (operations st1) false "Operation timed out"
                (currentImageSrc st1), S attempts) in
      match fst (getOperationResult operationId (server attempts)) with
      | Thrown _ =>
          (mkState (operations st) false "Failed to check operation status"
             (currentImageSrc st), S attempts)
      | Returned None => next st
      | Returned (Some result) =>
          let st1 :=
            mkState (replace_operation operationId result (operations st))
              (isLoading st) (error st) (currentImageSrc st) in
          match op_status result with
          | completed =>
              (mkState (operations st1) false (error st1)
                 (match op_result_image_path result with
                  | Some path =>
                      if truthy (op_result_image_path result) then path
                      else currentImageSrc st1
                  | None => currentImageSrc st1
                  end),
               S attempts)
          | failed =>
              (mkState (operations st1) false
                 (match op_error_message result with
                  | Some message =>
                      if truthy (op_error_message result) then message
                      else "Operation failed"%string
                  | None => "Operation failed"%string
                  end)
                 (currentImageSrc st1),
               S attempts)
          | _ => next st1
          end
      end
  end.

(** [pollOperationResult(operationId)] *)
Definition pollOperationResult (server : nat -> DB) (operationId : Z) (st : State)
  : State * nat :=
  poll maxAttempts server operationId 0 st.

(** What a query finds when the operation is not finished: no row, or a row
    that is neither completed nor failed. *)
Definition unfinished (db : DB) (operationId : Z) : Prop :=
  match fst (getOperationResult operationId db) with
  | Returned None => True
  | Returned (Some result) => op_status result = pending \/ op_status result = processing
  | Thrown _ => False
  end.

End Client.

(* ================================================================== *)
(** * The client's project list
      ([client/src/components/ProjectManager.tsx], lines 47-64) *)

Module ProjectList.

(** The pieces of component state [loadProjects] writes; [shown] is the
    state variable [projects]. *)
Record State : Type := mkState {
  shown : list Project;
  isLoading : bool;
  error : string
}.

(** The request [loadProjects] sends: [{ limit: 20, offset: 0, public_only:
    false }]. *)
Definition query : Schema.ListProjectsQuery :=
  Schema.mkListProjectsQuery (Some Schema.n20) (Some Schema.n0) (Some false).

(** [loadProjects]: a rejected request or a thrown error lands in the
    [catch]; [finally] turns the loading flag off. *)
Definition loadProjects (db : DB) (st : State) : State :=
  match fst (appRouter.listProjects query db) with
  | Handled (Returned result) => mkState (projects result) false EmptyString
  | Handled (Thrown _) | Rejected => mkState (shown st) false "Failed to load projects"
  end.

End ProjectList.

(* ================================================================== *)
(** * More stores and requests to evaluate on *)

Module Fixture.

(** An operation a worker has completed in no time, and one that failed. *)
Definition finished : AIOperation :=
  mkAIOperation 1 1 object_removal completed None (Some "mask"%string) None
    (Some "/results/processed-image.jpg"%string) None (Some JsNumber.zero) 1000 1500.

Definition broken : AIOperation :=
  mkAIOperation 2 1 style_transfer failed (Some "watercolor"%string) None None
    None (Some "Test error"%string) None 1010 1600.

Definition worked : DB := mkDB [Sample.photo] 2 [finished; broken] 3 [] 1.

(** The store each query of a poll finds: the operations are pending for
    the first three queries and worked on afterwards. *)
Definition server (k : nat) : DB :=
  if (k <? 3)%nat then Sample.three_operations else worked.

Definition state : Client.State :=
  Client.mkState [Sample.operation 1 1000] true EmptyString "/uploads/test-image.jpg".

(** A removal request that gives one of the two tuning values. *)
Definition removal : ObjectRemovalInput :=
  mkObjectRemovalInput 1 "mask"
    (Some (mkObjectRemovalParameters (Some Sample.n0_9) None)).

(** A listing request for the second page of two. *)
Definition second_page : Schema.ListProjectsQuery :=
  Schema.mkListProjectsQuery
    (Some (JsNumber.mkNumber false [JsNumber.dig2] 1))
    (Some (JsNumber.mkNumber false [JsNumber.dig2] 1)) None.

(** 2.5 *)
Definition n2_5 : JsNumber.number :=
  JsNumber.mkNumber false [JsNumber.dig2; JsNumber.dig5] 1.

End Fixture.

(* ================================================================== *)
(** * Histories of handler calls *)

(** One call of a store-backed handler, with the time it runs at where it
    writes. *)
Inductive call : Type :=
| call_uploadImage (now : Z) (input : UploadImageInput)
| call_getImage (imageId : Z)
| call_removeObject (now : Z) (input : ObjectRemovalInput)
| call_applyStyleTransfer (now : Z) (input : StyleTransferInput)
| call_modifyImage (now : Z) (input : ImageModificationInput)
| call_getOperationResult (operationId : Z)
| call_listOperations (imageId : option Z)
| call_createProject (now : Z) (input : CreateProjectInput)
| call_getProject (projectId : Z)
| call_listProjects (input : ListProjectsInput).

(** The store a call leaves behind, whatever its outcome. *)
Definition after (c : call) (db : DB) : DB :=
  match c with
  | call_uploadImage now input => snd (uploadImage now input db)
  | call_getImage imageId => snd (getImage imageId db)
  | call_removeObject now input => snd (removeObject now input db)
  | call_applyStyleTransfer now input => snd (applyStyleTransfer now input db)
  | call_modifyImage now input => snd (modifyImage now input db)
  | call_getOperationResult operationId => snd (getOperationResult operationId db)
  | call_listOperations imageId => snd (listOperations imageId db)
  | call_createProject now input => snd (createProject now input db)
  | call_getProject projectId => snd (getProject projectId db)
  | call_listProjects input => snd (listProjects input db)
  end.

(** The store after a history of calls, oldest first. *)
Definition history (calls : list call) (db : DB) : DB :=
  fold_left (fun db c => after c db) calls db.

(** No operation in the store is completed or failed: each is pending, with
    no result. *)
Definition all_pending (db : DB) : Prop :=
  forall r, In r (aiOperationsTable db) -> pending_unprocessed r.

(** Every project and every operation refers to a stored image. *)
Definition references_ok (db : DB) : Prop :=
  (forall r, In r (aiOperationsTable db) -> image_exists db (op_image_id r))
  /\ (forall r, In r (projectsTable db) -> image_exists db (prj_original_image_id r)).

(** Every stored image has a positive size and positive dimensions. *)
Definition images_positive (db : DB) : Prop :=
  forall r, In r (imagesTable db) ->
    0 < img_file_size r /\ 0 < img_width r /\ 0 < img_height r.

(* ================================================================== *)
(** * Numbers: reading back what [toString] prints *)

Module JsNumberFacts.
Import JsNumber.

Lemma char_digit_char (d : digit) : char_digit (digit_char d) = Some d.
Proof. destruct d; reflexivity. Qed.

Lemma is_dig0_true (d : digit) : is_dig0 d = true <-> d = dig0.
Proof. destruct d; cbn; split; intro H; try reflexivity; discriminate H. Qed.

Lemma is_dig0_false (d : digit) : d <> dig0 -> is_dig0 d = false.
Proof. destruct d; intro H; try reflexivity. now elim H. Qed.

Lemma span_digits_app (ds : list digit) (rest : list ascii) :
  digit_free_head rest ->
  span_digits (chars_of_digits ds ++ rest) = (ds, rest).
Proof.
  intro Hrest. induction ds as [|d ds IH]; cbn.
  - destruct rest as [|c r]; [reflexivity|].
    cbn in Hrest. cbn. now rewrite Hrest.
  - rewrite char_digit_char. unfold chars_of_digits in IH. now rewrite IH.
Qed.

Lemma span_digits_all (ds : list digit) :
  span_digits (chars_of_digits ds) = (ds, []).
Proof.
  rewrite <- (app_nil_r (chars_of_digits ds)).
  now apply span_digits_app.
Qed.

Lemma chars_of_digits_app (a b : list digit) :
  chars_of_digits (a ++ b) = chars_of_digits a ++ chars_of_digits b.
Proof. apply map_app. Qed.

Lemma strip_leading_zeros_nonzero (d : digit) (ds : list digit) (n : Z) :
  d <> dig0 -> strip_leading_zeros (d :: ds) n = (d :: ds, n).
Proof. destruct d; intro H; try reflexivity. now elim H. Qed.

Lemma strip_leading_zeros_zeros (m : nat) (ds : list digit) (n : Z) :
  strip_leading_zeros (zeros m ++ ds) n = strip_leading_zeros ds (n - Z.of_nat m).
Proof.
  revert n. induction m as [|m IH]; intro n.
  - cbn. f_equal. lia.
  - cbn [zeros repeat app strip_leading_zeros].
    fold (zeros m). rewrite IH. f_equal. lia.
Qed.

Lemma strip_trailing_zeros_keeps (ds : list digit) :
  ds <> [] -> last_digit ds <> dig0 -> strip_trailing_zeros ds = ds.
Proof.
  induction ds as [|d ds IH]; intros Hne Hlast; [now elim Hne|].
  destruct ds as [|d' ds'].
  - cbn. cbn in Hlast. now rewrite (is_dig0_false d Hlast).
  - assert (E : strip_trailing_zeros (d' :: ds') = d' :: ds').
    { apply IH; [discriminate|exact Hlast]. }
    cbn [strip_trailing_zeros]. cbn [strip_trailing_zeros] in E. rewrite E.
    reflexivity.
Qed.

Lemma strip_trailing_zeros_zeros (m : nat) : strip_trailing_zeros (zeros m) = [].
Proof. induction m as [|m IH]; cbn; [reflexivity|]. fold (zeros m). now rewrite IH. Qed.

Lemma strip_trailing_zeros_app_zeros (ds : list digit) (m : nat) :
  ds <> [] -> last_digit ds <> dig0 ->
  strip_trailing_zeros (ds ++ zeros m) = ds.
Proof.
  induction ds as [|d ds IH]; intros Hne Hlast; [now elim Hne|].
  destruct ds as [|d' ds'].
  - cbn [app strip_trailing_zeros]. rewrite strip_trailing_zeros_zeros.
    cbn in Hlast. now rewrite (is_dig0_false d Hlast).
  - assert (E : strip_trailing_zeros ((d' :: ds') ++ zeros m) = d' :: ds').
    { apply IH; [discriminate|exact Hlast]. }
    change ((d :: d' :: ds') ++ zeros m) with (d :: ((d' :: ds') ++ zeros m)).
    cbn [strip_trailing_zeros]. rewrite E. reflexivity.
Qed.

Lemma uint_of_digits_of_uint (u : Decimal.uint) :
  uint_of_digits (digits_of_uint u) = u.
Proof. induction u; cbn; congruence. Qed.

Lemma nat_of_digits_of_nat (n : nat) : nat_of_digits (digits_of_nat n) = n.
Proof.
  unfold nat_of_digits, digits_of_nat. rewrite uint_of_digits_of_uint.
  apply DecimalNat.Unsigned.of_to.
Qed.

Lemma digits_of_nat_nonempty (n : nat) : digits_of_nat n <> [].
Proof.
  intro H. pose proof (nat_of_digits_of_nat n) as E. rewrite H in E.
  cbn in E. subst n. discriminate H.
Qed.

Lemma int_part_ok_nonzero (d : digit) (ds : list digit) :
  d <> dig0 -> int_part_ok (d :: ds) = true.
Proof. destruct d; intro H; try reflexivity. now elim H. Qed.

Lemma normalise_canonical (neg : bool) (d : digit) (ds : list digit) (n : Z) :
  d <> dig0 -> last_digit (d :: ds) <> dig0 ->
  normalise neg (d :: ds) n = mkNumber neg (d :: ds) n.
Proof.
  intros Hd Hl. unfold normalise.
  rewrite (strip_leading_zeros_nonzero d ds n Hd).
  rewrite strip_trailing_zeros_keeps; [reflexivity|discriminate|exact Hl].
Qed.

(** Step 6: an integer, digits then zeros. *)
Lemma parse_integer_format (neg : bool) (d : digit) (ds : list digit) (n : Z) :
  d <> dig0 -> last_digit (d :: ds) <> dig0 ->
  Z.of_nat (List.length (d :: ds)) <= n ->
  parse_unsigned neg
    (chars_of_digits
       ((d :: ds) ++ zeros (Z.to_nat (n - Z.of_nat (List.length (d :: ds))))))
  = Some (mkNumber neg (d :: ds) n).
Proof.
  intros Hd Hl Hk. unfold parse_unsigned.
  rewrite span_digits_all.
  set (m := Z.to_nat (n - Z.of_nat (List.length (d :: ds)))) in *.
  change ((d :: ds) ++ zeros m) with (d :: (ds ++ zeros m)).
  rewrite (int_part_ok_nonzero _ _ Hd).
  cbn [parse_frac parse_exp]. rewrite app_nil_r.
  unfold normalise. rewrite (strip_leading_zeros_nonzero _ _ _ Hd).
  change (d :: (ds ++ zeros m)) with ((d :: ds) ++ zeros m).
  rewrite strip_trailing_zeros_app_zeros; [|discriminate|exact Hl].
  f_equal. f_equal.
  rewrite length_app. unfold zeros. rewrite repeat_length.
  unfold m. lia.
Qed.

(** Step 7: the decimal point inside the digits. *)
Lemma parse_point_format (neg : bool) (d : digit) (ds : list digit) (n : Z) :
  d <> dig0 -> last_digit (d :: ds) <> dig0 ->
  0 < n -> n < Z.of_nat (List.length (d :: ds)) ->
  parse_unsigned neg
    (chars_of_digits (firstn (Z.to_nat n) (d :: ds)) ++ ["."%char]
       ++ chars_of_digits (skipn (Z.to_nat n) (d :: ds)))
  = Some (mkNumber neg (d :: ds) n).
Proof.
  intros Hd Hl H0 Hk. unfold parse_unsigned.
  rewrite span_digits_app by reflexivity.
  assert (Hf : exists r, firstn (Z.to_nat n) (d :: ds) = d :: r).
  { destruct (Z.to_nat n) as [|m] eqn:E; [lia|]. cbn. eauto. }
  destruct Hf as [r Hf]. rewrite Hf.
  rewrite (int_part_ok_nonzero _ _ Hd). rewrite <- Hf.
  cbn [app parse_frac Ascii.eqb Bool.eqb].
  rewrite span_digits_all.
  assert (Hs : skipn (Z.to_nat n) (d :: ds) <> []).
  { intro E. apply (f_equal (@List.length digit)) in E.
    rewrite length_skipn in E. cbn [List.length] in E, Hk. lia. }
  destruct (skipn (Z.to_nat n) (d :: ds)) as [|f fs] eqn:Es; [now elim Hs|].
  cbn [parse_exp]. rewrite <- Es. rewrite firstn_skipn.
  rewrite length_firstn.
  rewrite (normalise_canonical _ _ _ _ Hd Hl).
  f_equal. f_equal. lia.
Qed.

(** Step 8: a fraction below one with few leading zeros. *)
Lemma parse_fraction_format (neg : bool) (d : digit) (ds : list digit) (n : Z) :
  d <> dig0 -> last_digit (d :: ds) <> dig0 ->
  n <= 0 ->
  parse_unsigned neg
    (["0"; "."]%char ++ chars_of_digits (zeros (Z.to_nat (- n)) ++ d :: ds))
  = Some (mkNumber neg (d :: ds) n).
Proof.
  intros Hd Hl H0. unfold parse_unsigned.
  cbn [app span_digits char_digit int_part_ok parse_frac Ascii.eqb Bool.eqb].
  rewrite span_digits_all.
  destruct (zeros (Z.to_nat (- n)) ++ d :: ds) as [|z zs] eqn:Ez.
  { apply app_eq_nil in Ez. destruct Ez as [_ Ez]. discriminate Ez. }
  cbn [parse_exp]. rewrite <- Ez.
  unfold normalise.
  cbn [app strip_leading_zeros List.length].
  rewrite strip_leading_zeros_zeros.
  rewrite (strip_leading_zeros_nonzero _ _ _ Hd).
  rewrite strip_trailing_zeros_keeps; [|discriminate|exact Hl].
  f_equal. f_equal. lia.
Qed.

Lemma parse_exp_signed (e : Z) :
  parse_exp (["e"%char; if e <? 0 then "-"%char else "+"%char]
               ++ chars_of_digits (digits_of_nat (Z.abs_nat e)))
  = Some (e, []).
Proof.
  pose proof (digits_of_nat_nonempty (Z.abs_nat e)) as Hne.
  pose proof (nat_of_digits_of_nat (Z.abs_nat e)) as Hrt.
  destruct (e <? 0) eqn:He;
    cbn [app parse_exp Ascii.eqb Bool.eqb orb];
    unfold parse_exp_digits; rewrite span_digits_all;
    destruct (digits_of_nat (Z.abs_nat e)) as [|x xs]; try (now elim Hne);
    rewrite Hrt; f_equal; f_equal; lia.
Qed.

(** Steps 9 and 10: scientific notation. *)
Lemma parse_exponent_format (neg : bool) (d : digit) (ds : list digit) (n : Z) :
  d <> dig0 -> last_digit (d :: ds) <> dig0 ->
  parse_unsigned neg
    ([digit_char d]
       ++ match ds with [] => [] | _ => "."%char :: chars_of_digits ds end
       ++ ["e"%char; if n - 1 <? 0 then "-"%char else "+"%char]
       ++ chars_of_digits (digits_of_nat (Z.abs_nat (n - 1))))
  = Some (mkNumber neg (d :: ds) n).
Proof.
  intros Hd Hl. unfold parse_unsigned.
  destruct ds as [|f fs].
  - cbn [app]. cbn [span_digits]. rewrite char_digit_char.
    cbn [span_digits char_digit].
    rewrite (int_part_ok_nonzero _ _ Hd).
    cbn [parse_frac Ascii.eqb Bool.eqb].
    change ("e"%char :: (if n - 1 <? 0 then "-"%char else "+"%char)
              :: chars_of_digits (digits_of_nat (Z.abs_nat (n - 1))))
      with (["e"%char; if n - 1 <? 0 then "-"%char else "+"%char]
              ++ chars_of_digits (digits_of_nat (Z.abs_nat (n - 1)))).
    rewrite parse_exp_signed.
    cbn [app List.length].
    rewrite (normalise_canonical _ _ _ _ Hd Hl). f_equal. f_equal. lia.
  - cbn [app]. cbn [span_digits]. rewrite char_digit_char.
    cbn [span_digits char_digit].
    rewrite (int_part_ok_nonzero _ _ Hd).
    cbn [parse_frac Ascii.eqb Bool.eqb].
    change ("e"%char :: (if n - 1 <? 0 then "-"%char else "+"%char)
              :: chars_of_digits (digits_of_nat (Z.abs_nat (n - 1))))
      with (["e"%char; if n - 1 <? 0 then "-"%char else "+"%char]
              ++ chars_of_digits (digits_of_nat (Z.abs_nat (n - 1)))).
    rewrite span_digits_app by reflexivity.
    rewrite parse_exp_signed.
    cbn [app List.length].
    rewrite (normalise_canonical _ _ _ _ Hd Hl). f_equal. f_equal. lia.
Qed.

Lemma parse_chars_signed (neg : bool) (d : digit) (r : list ascii) (x : number) :
  parse_unsigned neg (digit_char d :: r) = Some x ->
  parse_chars (if neg then "-"%char :: digit_char d :: r else digit_char d :: r)
  = Some x.
Proof.
  intro H. unfold parse_chars. destruct neg.
  - cbn [parse_sign Ascii.eqb Bool.eqb]. exact H.
  - replace (parse_sign (digit_char d :: r)) with (false, digit_char d :: r)
      by (destruct d; reflexivity).
    exact H.
Qed.

(** Reading back the characters [toString] prints gives the number. *)
Theorem parse_toString_chars (x : number) :
  canonical x -> parse_chars (toString_chars x) = Some x.
Proof.
  destruct x as [neg ds n]. unfold canonical, toString_chars.
  cbn [num_neg num_digits num_exp].
  destruct ds as [|d ds].
  - intros [-> ->]. reflexivity.
  - intros [Hd Hl].
    set (k := Z.of_nat (List.length (d :: ds))).
    destruct ((k <=? n) && (n <=? 21)) eqn:E1.
    { apply andb_prop in E1. destruct E1 as [E1 _]. apply Z.leb_le in E1.
      change (chars_of_digits ((d :: ds) ++ zeros (Z.to_nat (n - k))))
        with (digit_char d :: chars_of_digits (ds ++ zeros (Z.to_nat (n - k)))).
      apply parse_chars_signed.
      change (digit_char d :: chars_of_digits (ds ++ zeros (Z.to_nat (n - k))))
        with (chars_of_digits ((d :: ds) ++ zeros (Z.to_nat (n - k)))).
      now apply parse_integer_format. }
    destruct ((0 <? n) && (n <=? 21)) eqn:E2.
    { apply andb_prop in E2. destruct E2 as [E2 E2']. apply Z.ltb_lt in E2.
      apply Z.leb_le in E2'.
      assert (Hk : n < k).
      { destruct (Z.leb_spec k n) as [Hle|Hlt]; [|exact Hlt].
        apply Z.leb_le in E2'. rewrite E2' in E1. discriminate E1. }
      assert (Hf : exists r, firstn (Z.to_nat n) (d :: ds) = d :: r).
      { destruct (Z.to_nat n) as [|m] eqn:E; [lia|]. cbn. eauto. }
      destruct Hf as [r Hf].
      pose proof (parse_point_format neg d ds n Hd Hl E2 Hk) as P.
      rewrite Hf in *. cbn [chars_of_digits map app] in *.
      now apply parse_chars_signed. }
    destruct ((-6 <? n) && (n <=? 0)) eqn:E3.
    { apply andb_prop in E3. destruct E3 as [_ E3]. apply Z.leb_le in E3.
      pose proof (parse_fraction_format neg d ds n Hd Hl E3) as P.
      cbn [app] in *.
      now apply (parse_chars_signed neg dig0). }
    pose proof (parse_exponent_format neg d ds n Hd Hl) as P.
    cbn [app] in *.
    now apply parse_chars_signed.
Qed.

Theorem parse_toString (x : number) :
  canonical x -> parse (toString x) = Some x.
Proof.
  intro H. unfold parse, toString.
  rewrite list_ascii_of_string_of_list_ascii.
  now apply parse_toString_chars.
Qed.

Lemma canonicalb_sound (x : number) : canonicalb x = true -> canonical x.
Proof.
  unfold canonicalb, canonical. destruct (num_digits x) as [|d ds].
  - intro H. apply andb_prop in H. destruct H as [H1 H2].
    apply negb_true_iff in H1. apply Z.eqb_eq in H2. now split.
  - intro H. apply andb_prop in H. destruct H as [H1 H2].
    apply negb_true_iff in H1, H2. split; intro E.
    + apply is_dig0_true in E. congruence.
    + apply is_dig0_true in E. congruence.
Qed.

(** ** Integers print as their decimal digits *)







End JsNumberFacts.

(* ================================================================== *)
(** * JSON: reading back what [stringify] writes *)

Module JSONFacts.
Import JsNumber JsNumberFacts JSON.

Lemma is_number_char_digit (d : digit) : is_number_char (digit_char d) = true.
Proof. destruct d; reflexivity. Qed.

Lemma number_chars_of_digits (ds : list digit) :
  Forall (fun c => is_number_char c = true) (chars_of_digits ds).
Proof.
  unfold chars_of_digits. apply Forall_map.
  apply Forall_forall. intros d _. apply is_number_char_digit.
Qed.

Lemma toString_chars_number_chars (x : number) :
  Forall (fun c => is_number_char c = true) (toString_chars x).
Proof.
  unfold toString_chars. destruct (num_digits x) as [|d ds].
  - repeat constructor.
  - assert (H : forall body,
               Forall (fun c => is_number_char c = true) body ->
               Forall (fun c => is_number_char c = true)
                 (if num_neg x then "-"%char :: body else body)).
    { intros body Hb. destruct (num_neg x); [constructor; [reflexivity|]|]; exact Hb. }
    apply H.
    repeat match goal with
           | |- context [if ?b then _ else _] => destruct b
           | |- context [match ?l with [] => _ | _ :: _ => _ end] => destruct l
           end;
      repeat first
        [ apply number_chars_of_digits
        | apply Forall_app; split
        | apply Forall_nil
        | apply Forall_cons; [first [reflexivity | apply is_number_char_digit]|] ].
Qed.

Lemma span_number_app (tok rest : list ascii) :
  Forall (fun c => is_number_char c = true) tok ->
  number_free_head rest ->
  span_number (tok ++ rest) = (tok, rest).
Proof.
  intros Htok Hrest. induction Htok as [|c tok Hc _ IH]; cbn [app].
  - destruct rest as [|c r]; [reflexivity|]. cbn in Hrest. cbn. now rewrite Hrest.
  - cbn [span_number]. rewrite Hc, IH. reflexivity.
Qed.

Lemma span_key_app (k rest : list ascii) :
  forallb plain_char k = true ->
  span_key (k ++ dquote :: rest) = Some (k, rest).
Proof.
  induction k as [|c k IH]; intro H.
  - reflexivity.
  - cbn [forallb] in H. apply andb_prop in H. destruct H as [Hc Hk].
    unfold plain_char in Hc. apply andb_prop in Hc. destruct Hc as [Hc _].
    apply andb_prop in Hc. destruct Hc as [Hq Hb].
    apply negb_true_iff in Hq, Hb.
    cbn [app span_key]. rewrite Hq, Hb, (IH Hk). reflexivity.
Qed.

Lemma parse_member_app (m : string * number) (rest : list ascii) :
  member_ok m -> number_free_head rest ->
  parse_member (member_chars m ++ rest) = Some (m, rest).
Proof.
  intros [Hk Hx] Hrest. destruct m as [k x]. cbn [fst snd] in *.
  unfold member_chars, parse_member. cbn [fst snd app].
  replace (Ascii.eqb dquote dquote) with true by reflexivity.
  rewrite <- app_assoc. cbn [app].
  rewrite (span_key_app _ _ Hk).
  rewrite (span_number_app _ _ (toString_chars_number_chars x) Hrest).
  rewrite (parse_toString_chars x Hx).
  now rewrite string_of_list_ascii_of_string.
Qed.

Lemma parse_members_chars (o : object) (fuel : nat) :
  o <> [] -> Forall member_ok o -> (List.length o <= fuel)%nat ->
  parse_members fuel (members_chars o ++ ["}"%char]) = Some o.
Proof.
  revert fuel. induction o as [|m o IH]; intros fuel Hne Hok Hfuel; [now elim Hne|].
  inversion Hok as [|? ? Hm Ho]; subst.
  destruct fuel as [|fuel]; [cbn in Hfuel; lia|].
  destruct o as [|m' o'].
  - cbn [members_chars parse_members].
    rewrite (parse_member_app m ["}"%char] Hm) by reflexivity.
    reflexivity.
  - change (members_chars (m :: m' :: o'))
      with (member_chars m ++ ","%char :: members_chars (m' :: o')).
    rewrite <- app_assoc. cbn [app parse_members].
    rewrite (parse_member_app m _ Hm) by reflexivity.
    rewrite (IH fuel); [reflexivity|discriminate|exact Ho|cbn in *; lia].
Qed.

Lemma members_chars_length (o : object) :
  (List.length o <= List.length (members_chars o ++ ["}"%char]))%nat.
Proof.
  induction o as [|m o IH]; [cbn; lia|].
  destruct o as [|m' o'].
  - cbn [members_chars]. rewrite length_app. cbn. lia.
  - change (members_chars (m :: m' :: o'))
      with (member_chars m ++ ","%char :: members_chars (m' :: o')).
    rewrite <- app_assoc, length_app. cbn [app List.length] in *. lia.
Qed.

(** [JSON.parse(JSON.stringify(o))] is [o]. *)
Theorem parse_stringify (o : object) :
  Forall member_ok o -> parse (stringify o) = Some o.
Proof.
  intro Hok. unfold parse, stringify.
  rewrite list_ascii_of_string_of_list_ascii.
  unfold stringify_chars. destruct o as [|m o]; [reflexivity|].
  assert (E : exists c r, members_chars (m :: o) ++ ["}"%char] = dquote :: c :: r).
  { destruct m as [k x].
    assert (T : exists c r, toString_chars x = c :: r).
    { unfold toString_chars.
      destruct (num_digits x); [eauto|].
      repeat match goal with
             | |- context [if ?b then _ else _] => destruct b
             end; cbn [app chars_of_digits map]; eauto.
      all: destruct (firstn _ _); cbn [app chars_of_digits map]; eauto. }
    destruct T as (c & r & T).
    destruct o; cbn [members_chars]; unfold member_chars; cbn [fst snd app];
      rewrite T; destruct (list_ascii_of_string k); cbn [app]; eauto. }
  destruct E as (c & r & E).
  unfold parse_chars. rewrite E.
  change (parse_members (List.length (dquote :: c :: r)) (dquote :: c :: r)
          = Some (m :: o)).
  rewrite <- E.
  apply parse_members_chars; [discriminate|exact Hok|apply members_chars_length].
Qed.

End JSONFacts.

(** The renderings agree with what a JavaScript engine prints. *)
Example toString_examples :
  JsNumber.toString Sample.n0_9 = "0.9"%string
  /\ JsNumber.toString Sample.n10 = "10"%string
  /\ JsNumber.toString (JsNumber.mkNumber false [JsNumber.dig7; JsNumber.dig5] 1)
     = "7.5"%string
  /\ JsNumber.toString (JsNumber.mkNumber false [JsNumber.dig1; JsNumber.dig2] (-6))
     = "1.2e-7"%string
  /\ JsNumber.toString (JsNumber.mkNumber false [JsNumber.dig1; JsNumber.dig2] (-5))
     = "0.0000012"%string
  /\ JsNumber.toString (JsNumber.of_Z (10 ^ 21)) = "1e+21"%string
  /\ JsNumber.toString (JsNumber.of_Z (10 ^ 20)) = "100000000000000000000"%string
  /\ JsNumber.toString (JsNumber.of_Z (-120)) = "-120"%string
  /\ JsNumber.toString (JsNumber.of_Z 0) = "0"%string.
Proof. repeat split. Qed.

Example parse_examples :
  JsNumber.parse "0.9" = Some Sample.n0_9
  /\ JsNumber.parse "10.0" = Some Sample.n10
  /\ JsNumber.parse "1e1" = Some Sample.n10
  /\ JsNumber.parse "01" = None
  /\ JsNumber.parse "1." = None
  /\ JsNumber.parse "-0" = Some JsNumber.zero.
Proof. repeat split. Qed.

Example stringify_example :
  JSON.stringify (ObjectRemovalParameters_object Sample.removal_bag)
  = ("{" ++ String JSON.dquote ("inpaint_strength" ++ String JSON.dquote (":0.9,"
       ++ String JSON.dquote ("guidance_scale" ++ String JSON.dquote ":10}"))))%string
  /\ JSON.stringify (ObjectRemovalParameters_object
                       (mkObjectRemovalParameters None None)) = "{}"%string.
Proof. split; reflexivity. Qed.

(* ================================================================== *)
(** * Selecting rows by key *)

Section ByKey.
Context {A : Type} (key : A -> Z).

Lemma select_none (id : Z) (rows : list A) :
  (forall r, In r rows -> key r <> id) ->
  filter (fun r => key r =? id) rows = [].
Proof.
  induction rows as [|x rows IH]; intro H; [reflexivity|].
  cbn. destruct (Z.eqb_spec (key x) id) as [E|_].
  - exfalso. apply (H x); [now left|exact E].
  - apply IH. intros r Hr. apply H. now right.
Qed.

Lemma select_some (id : Z) (rows : list A) (x : A) :
  In x rows -> key x = id ->
  exists y rest, filter (fun r => key r =? id) rows = y :: rest.
Proof.
  intros Hin Hk.
  destruct (filter (fun r => key r =? id) rows) as [|y rest] eqn:E; [|eauto].
  exfalso.
  assert (Hx : In x (filter (fun r => key r =? id) rows)).
  { apply filter_In. split; [exact Hin|now apply Z.eqb_eq]. }
  rewrite E in Hx. exact Hx.
Qed.

Lemma select_unique (rows : list A) (x : A) :
  NoDup (map key rows) -> In x rows ->
  filter (fun r => key r =? key x) rows = [x].
Proof.
  induction rows as [|y rows IH]; intros Hnd Hin; [now elim Hin|].
  cbn in Hnd. inversion Hnd as [|? ? Hy Hrest]; subst.
  cbn [filter]. destruct Hin as [->|Hin].
  - rewrite Z.eqb_refl. f_equal. apply select_none.
    intros r Hr E. apply Hy. rewrite <- E. now apply in_map.
  - destruct (Z.eqb_spec (key y) (key x)) as [E|_].
    + exfalso. apply Hy. rewrite E. now apply in_map.
    + now apply IH.
Qed.

Lemma select_appended (seq : Z) (rows : list A) (x : A) :
  (forall r, In r rows -> key r < seq) -> key x = seq ->
  filter (fun r => key r =? seq) (rows ++ [x]) = [x].
Proof.
  intros Hlt Hx. rewrite filter_app. cbn [filter].
  rewrite (proj2 (Z.eqb_eq _ _) Hx).
  rewrite select_none; [reflexivity|].
  intros r Hr. specialize (Hlt r Hr). lia.
Qed.

End ByKey.

(* ================================================================== *)
(** * The invariant of the store *)

Lemma key_appended {A : Type} (key : A -> Z) (seq : Z) (rows : list A) (x : A) :
  NoDup (map key rows) ->
  (forall r, In r rows -> key r < seq) ->
  key x = seq ->
  NoDup (map key (rows ++ [x]))
  /\ (forall r, In r (rows ++ [x]) -> key r < seq + 1).
Proof.
  intros Hnd Hlt Hx. split.
  - rewrite map_app. cbn [map].
    apply (Permutation_NoDup (Permutation_cons_append (map key rows) (key x))).
    constructor; [|exact Hnd].
    intro Hin. apply in_map_iff in Hin. destruct Hin as (r & Hr & Hin).
    specialize (Hlt r Hin). lia.
  - intros r Hr. apply in_app_or in Hr. destruct Hr as [Hr|[<-|[]]].
    + specialize (Hlt r Hr). lia.
    + lia.
Qed.

Lemma store_ok_empty_db : store_ok empty_db.
Proof.
  constructor; cbn; try constructor; intros r [].
Qed.

Lemma insert_images_ok (now : Z) (v : UploadImageInput) (db : DB) :
  store_ok db -> store_ok (snd (insert_images now v db)).
Proof.
  intros [H1 H2 H3 H4 H5 H6 H7]. cbn.
  destruct (key_appended img_id (images_id_seq db) (imagesTable db)
              (mkImage (images_id_seq db) (up_filename v) (up_original_filename v)
                 (up_file_path v) (up_file_size v) (up_mime_type v) (up_width v)
                 (up_height v) now now) H2 H1 eq_refl) as [Hnd Hlt].
  constructor; cbn; assumption.
Qed.

Lemma insert_ai_operations_ok (now : Z) (v : NewAIOperation) (db : DB) :
  number_ok (new_processing_time v) ->
  store_ok db -> store_ok (snd (insert_ai_operations now v db)).
Proof.
  intros Hv [H1 H2 H3 H4 H5 H6 H7]. cbn.
  destruct (key_appended op_id (ai_operations_id_seq db) (aiOperationsTable db)
              (mkAIOperation (ai_operations_id_seq db) (new_image_id v)
                 (new_operation_type v) (new_status v) (new_prompt v)
                 (new_mask_data v) (new_parameters v) (new_result_image_path v)
                 (new_error_message v) (new_processing_time v) now now)
              H4 H3 eq_refl) as [Hnd Hlt].
  constructor; cbn; try assumption.
  intros r Hr. apply in_app_or in Hr. destruct Hr as [Hr|[<-|[]]].
  - now apply H5.
  - exact Hv.
Qed.

Lemma insert_projects_ok (now : Z) (v : NewProject) (db : DB) :
  store_ok db -> store_ok (snd (insert_projects now v db)).
Proof.
  intros [H1 H2 H3 H4 H5 H6 H7]. cbn.
  destruct (key_appended prj_id (projects_id_seq db) (projectsTable db)
              (mkProject (projects_id_seq db) (newp_name v) (newp_description v)
                 (newp_original_image_id v) (newp_current_image_path v)
                 (newp_operations_history v) (newp_is_public v) now now)
              H7 H6 eq_refl) as [Hnd Hlt].
  constructor; cbn; assumption.
Qed.

Lemma update_projects_ok (now : Z) (input : UpdateProjectInput) (db : DB) :
  store_ok db -> store_ok (snd (update_projects_where_id now input db)).
Proof.
  intros [H1 H2 H3 H4 H5 H6 H7].
  assert (Hid : forall rows,
             map prj_id
               (map (fun p => if prj_id p =? upd_id input
                              then apply_update now input p else p) rows)
             = map prj_id rows).
  { intro rows. rewrite map_map. apply map_ext. intro p.
    now destruct (prj_id p =? upd_id input). }
  constructor; cbn; try assumption.
  - intros r Hr. apply in_map_iff in Hr. destruct Hr as (q & <- & Hq).
    specialize (H6 q Hq). now destruct (prj_id q =? upd_id input).
  - now rewrite Hid.
Qed.

(** Every handler leaves a store that satisfies the invariant. *)
Theorem handlers_keep_store_ok (now : Z) (db : DB) :
  store_ok db ->
  (forall input, store_ok (snd (uploadImage now input db)))
  /\ (forall input, store_ok (snd (removeObject now input db)))
  /\ (forall input, store_ok (snd (applyStyleTransfer now input db)))
  /\ (forall input, store_ok (snd (modifyImage now input db)))
  /\ (forall input, store_ok (snd (createProject now input db)))
  /\ (forall input, store_ok (snd (updateProject now input db)))
  /\ (forall id, snd (getImage id db) = db)
  /\ (forall id, snd (getProject id db) = db)
  /\ (forall id, snd (getOperationResult id db) = db)
  /\ (forall imageId, snd (listOperations imageId db) = db)
  /\ (forall input, snd (listProjects input db) = db).
Proof.
  intro Hok. repeat match goal with |- _ /\ _ => split end; intro input.
  - exact (insert_images_ok now _ db Hok).
  - unfold removeObject, bind, select_images_where_id, throw, ret.
    destruct (filter _ _); cbn [List.length Nat.eqb snd]; [exact Hok|].
    apply insert_ai_operations_ok; [exact I|exact Hok].
  - unfold applyStyleTransfer, bind, select_images_where_id, throw, ret.
    destruct (filter _ _); cbn [List.length Nat.eqb snd]; [exact Hok|].
    apply insert_ai_operations_ok; [exact I|exact Hok].
  - unfold modifyImage, bind, select_images_where_id, throw, ret.
    destruct (filter _ _); cbn [List.length Nat.eqb snd]; [exact Hok|].
    apply insert_ai_operations_ok; [exact I|exact Hok].
  - unfold createProject, bind, select_images_where_id, throw, ret.
    destruct (filter _ _); cbn [snd]; [exact Hok|].
    exact (insert_projects_ok now _ db Hok).
  - pose proof (update_projects_ok now input db Hok) as H.
    unfold updateProject, bind, ret.
    destruct (update_projects_where_id now input db) as [[result|message] db'];
      cbn [snd] in *; [destruct result|]; exact H.
  - unfold getImage, bind, select_images_where_id, ret.
    now destruct (filter _ _).
  - unfold getProject, bind, select_projects_where_id, ret.
    now destruct (filter _ _).
  - unfold getOperationResult, bind, select_ai_operations_where_id, ret.
    now destruct (filter _ _).
  - reflexivity.
  - unfold listProjects. now destruct (lp_public_only input).
Qed.

(* ================================================================== *)
(** * Reads of absent rows *)



(* ================================================================== *)
(** * Creating operations *)


Lemma image_exists_select (db : DB) (id : Z) :
  image_exists db id ->
  exists y rest, filter (fun r => img_id r =? id) (imagesTable db) = y :: rest.
Proof. intros (r & Hin & Hid). exact (select_some img_id id _ r Hin Hid). Qed.

Ltac run_handler :=
  unfold removeObject, applyStyleTransfer, modifyImage, createProject,
    uploadImage, getImage, getProject, getOperationResult, updateProject,
    bind, ret, throw, select_images_where_id, select_projects_where_id,
    select_ai_operations_where_id, insert_ai_operations, insert_images,
    insert_projects, update_projects_where_id.



(** C10.  Whatever its input, the row [applyStyleTransfer] creates (the one
    it returns and the one it appends to the table) has [mask_data] null, and
    the row [removeObject] creates has [prompt] null. *)
Theorem unused_payload_is_null (now : Z) (db : DB) :
  (forall input op db',
     applyStyleTransfer now input db = (Returned op, db') ->
     op_mask_data op = None
     /\ exists row, aiOperationsTable db' = aiOperationsTable db ++ [row]
                    /\ op_id row = op_id op
                    /\ op_mask_data row = None)
  /\ (forall input op db',
        removeObject now input db = (Returned op, db') ->
        op_prompt op = None
        /\ exists row, aiOperationsTable db' = aiOperationsTable db ++ [row]
                       /\ op_id row = op_id op
                       /\ op_prompt row = None).
Proof.
  split; intros input op db'; run_handler;
    match goal with
    | |- context [filter ?f ?l] => destruct (filter f l) as [|y rest]
    end; cbn [List.length Nat.eqb]; intro H; try discriminate H;
    injection H as <- <-; cbn.
  all: split; [reflexivity|];
    eexists; split; [reflexivity|split; reflexivity].
Qed.

Lemma unused_payload_is_null_witness :
  exists op db',
    applyStyleTransfer 2000 (mkStyleTransferInput 1 "watercolor" None)
      Sample.one_image = (Returned op, db')
    /\ op_mask_data op = None
    /\ exists row, aiOperationsTable db' = [row] /\ op_id row = op_id op
                   /\ op_mask_data row = None.
Proof.
  eexists. eexists.
  assert (E : applyStyleTransfer 2000 (mkStyleTransferInput 1 "watercolor" None)
                Sample.one_image
              = (Returned (mkAIOperation 1 1 style_transfer pending
                             (Some "watercolor"%string) None None None None None
                             2000 2000),
                 mkDB [Sample.photo] 2
                   [mkAIOperation 1 1 style_transfer pending
                      (Some "watercolor"%string) None None None None None
                      2000 2000] 2 [] 1)) by reflexivity.
  split; [exact E|].
  exact (proj1 (unused_payload_is_null 2000 Sample.one_image) _ _ _ E).
Defined.

(* ================================================================== *)
(** * Projects *)


Lemma sample_one_image_ok : store_ok Sample.one_image.
Proof.
  constructor; cbn.
  - intros r [<-|[]]. cbn. lia.
  - repeat constructor. intros [].
  - intros r [].
  - constructor.
  - intros r [].
  - intros r [].
  - constructor.
Qed.


(* ================================================================== *)
(** * Images *)



(* ================================================================== *)
(** * Listing projects *)

Lemma filter_is_public (rows : list Project) :
  filter (fun p => Bool.eqb (prj_is_public p) true) rows
  = filter prj_is_public rows.
Proof.
  apply filter_ext. intro p. now destruct (prj_is_public p).
Qed.

Lemma listProjects_run (input : ListProjectsInput) (db : DB) :
  listProjects input db
  = (Returned
       (mkListProjectsResult
          (limit_offset (lp_limit input) (lp_offset input)
             (projects_of (lp_public_only input) db))
          (Z.of_nat (List.length (projects_of (lp_public_only input) db)))),
     db).
Proof.
  unfold listProjects, projects_of. destruct (lp_public_only input).
  - now rewrite filter_is_public.
  - reflexivity.
Qed.







(* ================================================================== *)
(** * Listing operations *)

Lemma insert_desc_perm (x : AIOperation) (l : list AIOperation) :
  Permutation (insert_desc x l) (x :: l).
Proof.
  induction l as [|y l IH]; cbn; [reflexivity|].
  destruct (op_created_at y <=? op_created_at x); [reflexivity|].
  rewrite IH. apply perm_swap.
Qed.

Lemma orderBy_desc_created_at_perm (l : list AIOperation) :
  Permutation (orderBy_desc_created_at l) l.
Proof.
  induction l as [|x l IH]; cbn; [reflexivity|].
  fold (orderBy_desc_created_at l).
  rewrite insert_desc_perm. now constructor.
Qed.



Lemma coerce_not_null_stored (operation : AIOperation) :
  number_ok (op_processing_time operation) ->
  with_processing_time operation
    (coerce_processing_time_not_null (op_processing_time operation))
  = operation.
Proof.
  destruct operation as [i im ty st pr mk pa rp em pt ca ua]. cbn.
  destruct pt as [x|]; cbn; intro H; [|reflexivity].
  unfold with_processing_time, parseFloat. cbn.
  now rewrite (JsNumberFacts.parse_toString x H).
Qed.

Lemma operations_of_incl (imageId : option Z) (db : DB) (r : AIOperation) :
  In r (operations_of imageId db) -> In r (aiOperationsTable db).
Proof.
  destruct imageId as [id|]; cbn; [|trivial].
  intro H. apply filter_In in H. apply H.
Qed.


Lemma sample_three_operations_ok : store_ok Sample.three_operations.
Proof.
  constructor; cbn.
  - intros r [<-|[]]. cbn. lia.
  - repeat constructor. intros [].
  - intros r [<-|[<-|[<-|[]]]]; cbn; lia.
  - repeat constructor; cbn; intuition discriminate.
  - intros r [<-|[<-|[<-|[]]]]; exact I.
  - intros r [].
  - constructor.
Qed.


(* ================================================================== *)
(** * Updating a project *)






(* ================================================================== *)
(** * Parameter bags *)

Lemma prop_ok (k : string) (v : option JsNumber.number) :
  JSON.plain_key k = true -> number_ok v -> Forall JSON.member_ok (JSON.prop k v).
Proof.
  intros Hk Hv. destruct v as [x|]; cbn; [|constructor].
  constructor; [split; assumption|constructor].
Qed.

Lemma ObjectRemovalParameters_round_trip (p : ObjectRemovalParameters) :
  ObjectRemovalParameters_ok p ->
  JSON.parse (JSON.stringify (ObjectRemovalParameters_object p))
  = Some (ObjectRemovalParameters_object p)
  /\ ObjectRemovalParameters_of_object (ObjectRemovalParameters_object p) = p.
Proof.
  intros (H1 & H2). split.
  - apply JSONFacts.parse_stringify. unfold ObjectRemovalParameters_object.
    repeat (apply Forall_app; split); now apply prop_ok.
  - destruct p as [[a|] [b|]]; reflexivity.
Qed.

Lemma StyleTransferParameters_round_trip (p : StyleTransferParameters) :
  StyleTransferParameters_ok p ->
  JSON.parse (JSON.stringify (StyleTransferParameters_object p))
  = Some (StyleTransferParameters_object p)
  /\ StyleTransferParameters_of_object (StyleTransferParameters_object p) = p.
Proof.
  intros (H1 & H2 & H3). split.
  - apply JSONFacts.parse_stringify. unfold StyleTransferParameters_object.
    repeat (apply Forall_app; split); now apply prop_ok.
  - destruct p as [[a|] [b|] [c|]]; reflexivity.
Qed.

Lemma ImageModificationParameters_round_trip (p : ImageModificationParameters) :
  ImageModificationParameters_ok p ->
  JSON.parse (JSON.stringify (ImageModificationParameters_object p))
  = Some (ImageModificationParameters_object p)
  /\ ImageModificationParameters_of_object (ImageModificationParameters_object p) = p.
Proof.
  intros (H1 & H2 & H3). split.
  - apply JSONFacts.parse_stringify. unfold ImageModificationParameters_object.
    repeat (apply Forall_app; split); now apply prop_ok.
  - destruct p as [[a|] [b|] [c|]]; reflexivity.
Qed.

(** Reading a freshly created operation back. *)
Lemma read_back_created (now : Z) (v : NewAIOperation) (db : DB) :
  store_ok db -> new_processing_time v = None ->
  exists op db',
    insert_ai_operations now v db = (Returned op, db')
    /\ with_processing_time op (coerce_processing_time (op_processing_time op)) = op
    /\ op_parameters op = new_parameters v
    /\ getOperationResult (op_id op) db' = (Returned (Some op), db').
Proof.
  intros Hok Hpt. eexists. eexists. split; [reflexivity|]. cbn.
  rewrite Hpt. cbn. split; [reflexivity|]. split; [reflexivity|].
  run_handler. cbn.
  rewrite (select_appended op_id (ai_operations_id_seq db) (aiOperationsTable db));
    [|exact (operations_below_seq db Hok)|reflexivity].
  cbn. reflexivity.
Qed.

Ltac create_and_read_back Hok H :=
  apply image_exists_select in H; destruct H as (?y & ?rest & H);
  unfold removeObject, applyStyleTransfer, modifyImage;
  unfold bind at 1; unfold select_images_where_id; rewrite H;
  cbn [List.length Nat.eqb];
  match goal with
  | |- context [insert_ai_operations ?now ?v] =>
      destruct (read_back_created now v _ Hok eq_refl)
        as (op & db' & Hins & Hco & Hpar & Hget);
      unfold bind; rewrite Hins; unfold ret; rewrite Hco;
      exists op, db'; split; [reflexivity|]; split; [exact Hget|];
      rewrite Hpar; cbn [new_parameters]
  end.

(** C8.  In each creation handler an omitted parameter bag is stored as
    [null]; a supplied bag is stored as its JSON text, and parsing the
    [parameters] of the operation as read back by [getOperationResult] gives
    an object equal to the bag, property by property. *)
Theorem parameters_round_trip (now : Z) (db : DB) :
  store_ok db ->
  (forall input,
     image_exists db (or_image_id input) ->
     exists op db',
       removeObject now input db = (Returned op, db')
       /\ getOperationResult (op_id op) db' = (Returned (Some op), db')
       /\ match or_parameters input with
          | None => op_parameters op = None
          | Some bag =>
              ObjectRemovalParameters_ok bag ->
              exists text object,
                op_parameters op = Some text
                /\ JSON.parse text = Some object
                /\ ObjectRemovalParameters_of_object object = bag
          end)
  /\ (forall input,
        image_exists db (st_image_id input) ->
        exists op db',
          applyStyleTransfer now input db = (Returned op, db')
          /\ getOperationResult (op_id op) db' = (Returned (Some op), db')
          /\ match st_parameters input with
             | None => op_parameters op = None
             | Some bag =>
                 StyleTransferParameters_ok bag ->
                 exists text object,
                   op_parameters op = Some text
                   /\ JSON.parse text = Some object
                   /\ StyleTransferParameters_of_object object = bag
             end)
  /\ (forall input,
        image_exists db (im_image_id input) ->
        exists op db',
          modifyImage now input db = (Returned op, db')
          /\ getOperationResult (op_id op) db' = (Returned (Some op), db')
          /\ match im_parameters input with
             | None => op_parameters op = None
             | Some bag =>
                 ImageModificationParameters_ok bag ->
                 exists text object,
                   op_parameters op = Some text
                   /\ JSON.parse text = Some object
                   /\ ImageModificationParameters_of_object object = bag
             end).
Proof.
  intro Hok. split; [|split]; intros input H.
  - create_and_read_back Hok H.
    destruct (or_parameters input) as [bag|]; [|reflexivity].
    intro Hbag. destruct (ObjectRemovalParameters_round_trip bag Hbag) as [Hp Ho].
    eexists. eexists. split; [reflexivity|]. split; [exact Hp|exact Ho].
  - create_and_read_back Hok H.
    destruct (st_parameters input) as [bag|]; [|reflexivity].
    intro Hbag. destruct (StyleTransferParameters_round_trip bag Hbag) as [Hp Ho].
    eexists. eexists. split; [reflexivity|]. split; [exact Hp|exact Ho].
  - create_and_read_back Hok H.
    destruct (im_parameters input) as [bag|]; [|reflexivity].
    intro Hbag. destruct (ImageModificationParameters_round_trip bag Hbag) as [Hp Ho].
    eexists. eexists. split; [reflexivity|]. split; [exact Hp|exact Ho].
Qed.

Lemma parameters_round_trip_witness :
  (exists op db' text object,
     removeObject 2000
       (mkObjectRemovalInput 1 "mask" (Some Sample.removal_bag))
       Sample.one_image = (Returned op, db')
     /\ getOperationResult (op_id op) db' = (Returned (Some op), db')
     /\ op_parameters op = Some text
     /\ JSON.parse text = Some object
     /\ object = [("inpaint_strength"%string, Sample.n0_9);
                  ("guidance_scale"%string, Sample.n10)]
     /\ ObjectRemovalParameters_of_object object = Sample.removal_bag)
  /\ (exists op db',
        applyStyleTransfer 2000 (mkStyleTransferInput 1 "watercolor" None)
          Sample.one_image = (Returned op, db')
        /\ getOperationResult (op_id op) db' = (Returned (Some op), db')
        /\ op_parameters op = None).
Proof.
  destruct (parameters_round_trip 2000 Sample.one_image sample_one_image_ok)
    as (Hremove & Hstyle & _).
  assert (Himg : image_exists Sample.one_image 1).
  { exists Sample.photo. split; [now left|reflexivity]. }
  split.
  - destruct (Hremove (mkObjectRemovalInput 1 "mask" (Some Sample.removal_bag)) Himg)
      as (op & db' & Hrun & Hget & Hbag).
    cbn [or_parameters] in Hbag.
    destruct Hbag as (text & object & Htext & Hparse & Hobj).
    { split; cbn; split; discriminate. }
    exists op, db', text, object.
    repeat (split; [assumption|]). split; [|assumption].
    assert (E : removeObject 2000
                  (mkObjectRemovalInput 1 "mask" (Some Sample.removal_bag))
                  Sample.one_image
                = (Returned
                     (mkAIOperation 1 1 object_removal pending None
                        (Some "mask"%string)
                        (Some (JSON.stringify
                                 (ObjectRemovalParameters_object Sample.removal_bag)))
                        None None None 2000 2000),
                   mkDB [Sample.photo] 2
                     [mkAIOperation 1 1 object_removal pending None
                        (Some "mask"%string)
                        (Some (JSON.stringify
                                 (ObjectRemovalParameters_object Sample.removal_bag)))
                        None None None 2000 2000] 2 [] 1)) by reflexivity.
    rewrite E in Hrun. injection Hrun as <- <-. cbn [op_parameters] in Htext.
    injection Htext as <-.
    assert (P : JSON.parse (JSON.stringify
                              (ObjectRemovalParameters_object Sample.removal_bag))
                = Some [("inpaint_strength"%string, Sample.n0_9);
                        ("guidance_scale"%string, Sample.n10)]) by reflexivity.
    rewrite P in Hparse. now injection Hparse as <-.
  - exact (Hstyle (mkStyleTransferInput 1 "watercolor" None) Himg).
Defined.

(* ================================================================== *)
(** * What every history of calls keeps *)

Lemma history_keeps (P : DB -> Prop) :
  (forall c db, P db -> P (after c db)) ->
  forall calls db, P db -> P (history calls db).
Proof.
  intros Hstep calls. unfold history.
  induction calls as [|c calls IH]; intros db H; cbn; [exact H|].
  apply IH. now apply Hstep.
Qed.

Lemma after_store_ok (c : call) (db : DB) : store_ok db -> store_ok (after c db).
Proof.
  intro Hok.
  destruct (handlers_keep_store_ok 0 db Hok)
    as (_ & _ & _ & _ & _ & _ & Hgi & Hgp & Hgo & Hlo & Hlp).
  destruct c as [now input|id|now input|now input|now input|id|id|now input|id|input];
    cbn [after];
    try (destruct (handlers_keep_store_ok now db Hok)
           as (Hu & Hr & Hs & Hm & Hc & _); auto);
    [rewrite Hgi|rewrite Hgo|rewrite Hlo|rewrite Hgp|rewrite Hlp]; exact Hok.
Qed.

(** X1.  Whatever calls are made, in whatever order and with whatever
    inputs, starting from the empty store: in each table the ids stay
    pairwise distinct and below the next value of the table's sequence, and
    every stored [processing_time] is a well-formed number. *)
Theorem history_store_ok (calls : list call) : store_ok (history calls empty_db).
Proof.
  apply history_keeps; [exact after_store_ok|exact store_ok_empty_db].
Qed.

Lemma selected_exists (db : DB) (id : Z) (y : Image) (rest : list Image) :
  filter (fun r => img_id r =? id) (imagesTable db) = y :: rest ->
  image_exists db id.
Proof.
  intro H. exists y.
  assert (Hy : In y (filter (fun r => img_id r =? id) (imagesTable db)))
    by (rewrite H; now left).
  apply filter_In in Hy. destruct Hy as [Hin Hid]. split; [exact Hin|].
  now apply Z.eqb_eq.
Qed.

(** The store after an insert into [ai_operations]. *)
Lemma operations_after_insert (now : Z) (v : NewAIOperation) (db : DB) :
  exists row,
    fst (insert_ai_operations now v db) = Returned row
    /\ aiOperationsTable (snd (insert_ai_operations now v db))
       = aiOperationsTable db ++ [row]
    /\ imagesTable (snd (insert_ai_operations now v db)) = imagesTable db
    /\ projectsTable (snd (insert_ai_operations now v db)) = projectsTable db
    /\ op_id row = ai_operations_id_seq db
    /\ op_image_id row = new_image_id v
    /\ op_status row = new_status v
    /\ op_result_image_path row = new_result_image_path v
    /\ op_error_message row = new_error_message v
    /\ op_processing_time row = new_processing_time v
    /\ op_created_at row = now.
Proof. eexists. cbn. repeat split. Qed.

(** What a creation handler leaves behind: the store as it was, or the store
    with one pending row for an image that exists. *)
Lemma creation_after (c : call) (db : DB) :
  match c with
  | call_removeObject _ _ | call_applyStyleTransfer _ _ | call_modifyImage _ _ => True
  | _ => False
  end ->
  after c db = db
  \/ exists row,
       aiOperationsTable (after c db) = aiOperationsTable db ++ [row]
       /\ imagesTable (after c db) = imagesTable db
       /\ projectsTable (after c db) = projectsTable db
       /\ pending_unprocessed row
       /\ image_exists db (op_image_id row).
Proof.
  destruct c as [now input|id|now input|now input|now input|id|id|now input|id|input];
    intro H; try (now elim H); cbn [after].
  - unfold removeObject, bind, select_images_where_id, throw, ret.
    destruct (filter _ _) as [|y rest] eqn:E; cbn [List.length Nat.eqb snd];
      [now left|right].
    eexists. cbn. repeat split. exact (selected_exists _ _ _ _ E).
  - unfold applyStyleTransfer, bind, select_images_where_id, throw, ret.
    destruct (filter _ _) as [|y rest] eqn:E; cbn [List.length Nat.eqb snd];
      [now left|right].
    eexists. cbn. repeat split. exact (selected_exists _ _ _ _ E).
  - unfold modifyImage, bind, select_images_where_id, throw, ret.
    destruct (filter _ _) as [|y rest] eqn:E; cbn [List.length Nat.eqb snd];
      [now left|right].
    eexists. cbn. repeat split. exact (selected_exists _ _ _ _ E).
Qed.

(** The calls that write no operation leave the operations table alone. *)
Lemma operations_after_other (c : call) (db : DB) :
  match c with
  | call_removeObject _ _ | call_applyStyleTransfer _ _ | call_modifyImage _ _ => False
  | _ => True
  end ->
  aiOperationsTable (after c db) = aiOperationsTable db.
Proof.
  destruct c as [now input|id|now input|now input|now input|id|id|now input|id|input];
    intro H; try (now elim H); cbn [after]; try reflexivity;
    unfold getImage, getOperationResult, createProject, getProject, listProjects,
      bind, select_images_where_id, select_ai_operations_where_id,
      select_projects_where_id, throw, ret;
    try (now destruct (filter _ _)); now destruct (lp_public_only _).
Qed.

Lemma after_all_pending (c : call) (db : DB) : all_pending db -> all_pending (after c db).
Proof.
  intro Hp.
  assert (Hcase :
    match c with
    | call_removeObject _ _ | call_applyStyleTransfer _ _ | call_modifyImage _ _ => True
    | _ => False
    end
    \/ match c with
       | call_removeObject _ _ | call_applyStyleTransfer _ _ | call_modifyImage _ _ => False
       | _ => True
       end) by (destruct c; auto).
  destruct Hcase as [Hc|Hc].
  - destruct (creation_after c db Hc) as [->|(row & Hops & _ & _ & Hrow & _)];
      [exact Hp|].
    intros r Hr. rewrite Hops in Hr. apply in_app_or in Hr.
    destruct Hr as [Hr|[<-|[]]]; [now apply Hp|exact Hrow].
  - intros r Hr. rewrite (operations_after_other c db Hc) in Hr. now apply Hp.
Qed.

(** X2.  No history of calls, starting from the empty store, ever leaves an
    operation that is completed, failed or processing: every stored
    operation is pending and has no result path, no error message and no
    processing time. *)
Theorem history_all_pending (calls : list call) : all_pending (history calls empty_db).
Proof.
  apply history_keeps; [exact after_all_pending|].
  intros r [].
Qed.

Lemma images_after (c : call) (db : DB) :
  exists extra, imagesTable (after c db) = imagesTable db ++ extra.
Proof.
  destruct c as [now input|id|now input|now input|now input|id|id|now input|id|input];
    cbn [after];
    unfold getImage, getOperationResult, createProject, getProject, listProjects,
      removeObject, applyStyleTransfer, modifyImage,
      bind, select_images_where_id, select_ai_operations_where_id,
      select_projects_where_id, throw, ret;
    first
      [ eexists; reflexivity
      | exists []; rewrite app_nil_r;
        first [ reflexivity
              | now destruct (filter _ _)
              | now destruct (lp_public_only input) ] ].
Qed.

Lemma projects_after (c : call) (db : DB) :
  projectsTable (after c db) = projectsTable db
  \/ exists row,
       projectsTable (after c db) = projectsTable db ++ [row]
       /\ image_exists db (prj_original_image_id row).
Proof.
  destruct c as [now input|id|now input|now input|now input|id|id|now input|id|input];
    cbn [after];
    unfold getImage, getOperationResult, getProject, listProjects,
      removeObject, applyStyleTransfer, modifyImage,
      bind, select_images_where_id, select_ai_operations_where_id,
      select_projects_where_id, throw, ret;
    try (left; first [ reflexivity
                     | now destruct (filter _ _)
                     | now destruct (lp_public_only input) ]).
  unfold createProject, bind, select_images_where_id, throw, ret.
  destruct (filter _ _) as [|y rest] eqn:E; [now left|right].
  eexists. cbn. split; [reflexivity|]. exact (selected_exists _ _ _ _ E).
Qed.

Lemma image_exists_after (c : call) (db : DB) (id : Z) :
  image_exists db id -> image_exists (after c db) id.
Proof.
  intros (r & Hr & Hid). destruct (images_after c db) as (extra & E).
  exists r. split; [|exact Hid]. rewrite E. apply in_or_app. now left.
Qed.

Lemma after_references_ok (c : call) (db : DB) :
  references_ok db -> references_ok (after c db).
Proof.
  intros [Hops Hprj]. split.
  - intros r Hr. apply image_exists_after.
    assert (Hcase :
      match c with
      | call_removeObject _ _ | call_applyStyleTransfer _ _ | call_modifyImage _ _ => True
      | _ => False
      end
      \/ match c with
         | call_removeObject _ _ | call_applyStyleTransfer _ _ | call_modifyImage _ _ => False
         | _ => True
         end) by (destruct c; auto).
    destruct Hcase as [Hc|Hc].
    + destruct (creation_after c db Hc) as [E|(row & E & _ & _ & _ & Hrow)].
      * rewrite E in Hr. now apply Hops.
      * rewrite E in Hr. apply in_app_or in Hr.
        destruct Hr as [Hr|[<-|[]]]; [now apply Hops|exact Hrow].
    + rewrite (operations_after_other c db Hc) in Hr. now apply Hops.
  - intros r Hr. apply image_exists_after.
    destruct (projects_after c db) as [E|(row & E & Hrow)].
    + rewrite E in Hr. now apply Hprj.
    + rewrite E in Hr. apply in_app_or in Hr.
      destruct Hr as [Hr|[<-|[]]]; [now apply Hprj|exact Hrow].
Qed.

(** X3.  After any history of calls from the empty store, every stored
    operation and every stored project refers to an image that is in the
    store: the existence check of the creation handlers, and the absence of
    any handler that deletes, keep the references whole. *)
Theorem history_references_ok (calls : list call) :
  references_ok (history calls empty_db).
Proof.
  apply history_keeps; [exact after_references_ok|].
  split; intros r [].
Qed.

(* ================================================================== *)
(** * The polling loop *)

Lemma poll_stops (server : nat -> DB) (operationId : Z) (fuel : nat) :
  forall attempts st,
    (attempts < Client.maxAttempts)%nat ->
    (Client.maxAttempts <= fuel + attempts)%nat ->
    (attempts < snd (Client.poll fuel server operationId attempts st)
     <= Client.maxAttempts)%nat
    /\ Client.isLoading (fst (Client.poll fuel server operationId attempts st)) = false.
Proof.
  induction fuel as [|fuel IH]; intros attempts st Hlt Hfuel; [cbn in *; lia|].
  assert (Hnext : forall st1,
    let r := if (S attempts <? Client.maxAttempts)%nat
             then Client.poll fuel server operationId (S attempts) st1
             else (Client.mkState (Client.operations st1) false "Operation timed out"
                     (Client.currentImageSrc st1), S attempts) in
    (attempts < snd r <= Client.maxAttempts)%nat /\ Client.isLoading (fst r) = false).
  { intro st1. cbn zeta.
    destruct (Nat.ltb_spec (S attempts) Client.maxAttempts) as [H|H].
    - destruct (IH (S attempts) st1 H) as [H1 H2]; [lia|]. split; [lia|exact H2].
    - cbn. split; [lia|reflexivity]. }
  cbn [Client.poll].
  destruct (fst (getOperationResult operationId (server attempts))) as [[result|]|message].
  - destruct (op_status result); try apply Hnext; cbn; split; try reflexivity; lia.
  - apply Hnext.
  - cbn. split; [lia|reflexivity].
Qed.

Lemma polling_stops_aux (server : nat -> DB) (operationId : Z) (st : Client.State) :
  (1 <= snd (Client.pollOperationResult server operationId st) <= 60)%nat
  /\ Client.isLoading (fst (Client.pollOperationResult server operationId st)) = false.
Proof.
  unfold Client.pollOperationResult.
  destruct (poll_stops server operationId Client.maxAttempts 0 st) as [H1 H2].
  - unfold Client.maxAttempts. lia.
  - lia.
  - split; [|exact H2]. unfold Client.maxAttempts in *. lia.
Qed.

(** X4.  Whatever the server answers, polling an operation makes at least
    one and at most 60 queries, and when it stops the loading flag is off. *)
Theorem polling_stops (server : nat -> DB) (operationId : Z) (st : Client.State) :
  (1 <= snd (Client.pollOperationResult server operationId st) <= 60)%nat
  /\ Client.isLoading (fst (Client.pollOperationResult server operationId st)) = false.
Proof. exact (polling_stops_aux server operationId st). Qed.

Lemma poll_times_out (server : nat -> DB) (operationId : Z) (fuel : nat) :
  forall attempts st,
    (attempts < Client.maxAttempts)%nat ->
    (Client.maxAttempts <= fuel + attempts)%nat ->
    (forall k, (attempts <= k < Client.maxAttempts)%nat ->
               Client.unfinished (server k) operationId) ->
    snd (Client.poll fuel server operationId attempts st) = Client.maxAttempts
    /\ Client.error (fst (Client.poll fuel server operationId attempts st))
       = "Operation timed out"%string
    /\ Client.currentImageSrc (fst (Client.poll fuel server operationId attempts st))
       = Client.currentImageSrc st.
Proof.
  induction fuel as [|fuel IH]; intros attempts st Hlt Hfuel Hun; [cbn in *; lia|].
  assert (Hnext : forall st1,
    Client.currentImageSrc st1 = Client.currentImageSrc st ->
    let r := if (S attempts <? Client.maxAttempts)%nat
             then Client.poll fuel server operationId (S attempts) st1
             else (Client.mkState (Client.operations st1) false "Operation timed out"
                     (Client.currentImageSrc st1), S attempts) in
    snd r = Client.maxAttempts
    /\ Client.error (fst r) = "Operation timed out"%string
    /\ Client.currentImageSrc (fst r) = Client.currentImageSrc st).
  { intros st1 Hsrc. cbn zeta.
    destruct (Nat.ltb_spec (S attempts) Client.maxAttempts) as [H|H].
    - destruct (IH (S attempts) st1 H) as (H1 & H2 & H3); [lia| |].
      + intros k Hk. apply Hun. lia.
      + repeat split; [exact H1|exact H2|congruence].
    - cbn. repeat split; [lia|exact Hsrc]. }
  specialize (Hun attempts (conj (le_n _) Hlt)). unfold Client.unfinished in Hun.
  cbn [Client.poll].
  destruct (fst (getOperationResult operationId (server attempts))) as [[result|]|message].
  - destruct Hun as [Hs|Hs]; rewrite Hs; now apply Hnext.
  - now apply Hnext.
  - now elim Hun.
Qed.

(** X5.  If none of the 60 queries finds the operation completed or failed
    (it is absent, pending or processing each time), polling makes exactly 60
    queries and ends with the error [Operation timed out], the loading flag
    off and the displayed image unchanged. *)
Theorem polling_times_out (server : nat -> DB) (operationId : Z) (st : Client.State) :
  (forall k, (k < 60)%nat -> Client.unfinished (server k) operationId) ->
  snd (Client.pollOperationResult server operationId st) = 60%nat
  /\ Client.error (fst (Client.pollOperationResult server operationId st))
     = "Operation timed out"%string
  /\ Client.isLoading (fst (Client.pollOperationResult server operationId st)) = false
  /\ Client.currentImageSrc (fst (Client.pollOperationResult server operationId st))
     = Client.currentImageSrc st.
Proof.
  intro Hun.
  destruct (poll_times_out server operationId Client.maxAttempts 0 st)
    as (H1 & H2 & H3).
  - unfold Client.maxAttempts. lia.
  - lia.
  - intros k Hk. apply Hun. unfold Client.maxAttempts in Hk. lia.
  - destruct (polling_stops_aux server operationId st) as [_ H4].
    repeat split; assumption.
Qed.

Lemma poll_finds (server : nat -> DB) (operationId : Z) (k : nat)
    (result : AIOperation) (fuel : nat) :
  (k < Client.maxAttempts)%nat ->
  fst (getOperationResult operationId (server k)) = Returned (Some result) ->
  op_status result = completed \/ op_status result = failed ->
  forall attempts st,
    (attempts <= k)%nat ->
    (Client.maxAttempts <= fuel + attempts)%nat ->
    (forall j, (attempts <= j < k)%nat -> Client.unfinished (server j) operationId) ->
    exists seen,
      Client.poll fuel server operationId attempts st
      = Client.poll 1 server operationId k
          (Client.mkState seen (Client.isLoading st) (Client.error st)
             (Client.currentImageSrc st)).
Proof.
  intros Hk Hres Hstatus.
  induction fuel as [|fuel IH]; intros attempts st Hle Hfuel Hun;
    [cbn in *; lia|].
  destruct (Nat.eq_dec attempts k) as [->|Hne].
  - exists (Client.operations st). cbn [Client.poll]. rewrite Hres.
    destruct Hstatus as [Hs|Hs]; rewrite Hs; now destruct st.
  - assert (Hlt : (attempts < k)%nat) by lia.
    specialize (Hun attempts (conj (le_n _) Hlt)) as Hnow.
    unfold Client.unfinished in Hnow.
    assert (Hnext : forall st1,
      Client.isLoading st1 = Client.isLoading st ->
      Client.error st1 = Client.error st ->
      Client.currentImageSrc st1 = Client.currentImageSrc st ->
      exists seen,
        (if (S attempts <? Client.maxAttempts)%nat
         then Client.poll fuel server operationId (S attempts) st1
         else (Client.mkState (Client.operations st1) false "Operation timed out"
                 (Client.currentImageSrc st1), S attempts))
        = Client.poll 1 server operationId k
            (Client.mkState seen (Client.isLoading st) (Client.error st)
               (Client.currentImageSrc st))).
    { intros st1 H1 H2 H3.
      destruct (Nat.ltb_spec (S attempts) Client.maxAttempts) as [H|H]; [|lia].
      destruct (IH (S attempts) st1) as (seen & E); [lia|lia| |].
      - intros j Hj. apply Hun. lia.
      - exists seen. rewrite E, H1, H2, H3. reflexivity. }
    cbn [Client.poll].
    destruct (fst (getOperationResult operationId (server attempts)))
      as [[found|]|message].
    + destruct Hnow as [Hs|Hs]; rewrite Hs; now apply Hnext.
    + now apply Hnext.
    + now elim Hnow.
Qed.

(** X6.  If query number [k] (counted from 0, below 60) is the first to find
    the operation completed or failed, polling stops right there, after
    [k + 1] queries, with the loading flag off.  On completion the displayed
    image becomes the result path when that path is a non-empty string and
    the error text is left alone; on failure the error text becomes the
    operation's error message, or [Operation failed] when the message is null
    or empty, and the displayed image is left alone. *)
Theorem polling_reports_first_result
    (server : nat -> DB) (operationId : Z) (st : Client.State)
    (k : nat) (result : AIOperation) :
  (k < 60)%nat ->
  (forall j, (j < k)%nat -> Client.unfinished (server j) operationId) ->
  fst (getOperationResult operationId (server k)) = Returned (Some result) ->
  (op_status result = completed ->
   snd (Client.pollOperationResult server operationId st) = S k
   /\ Client.isLoading (fst (Client.pollOperationResult server operationId st)) = false
   /\ Client.error (fst (Client.pollOperationResult server operationId st))
      = Client.error st
   /\ Client.currentImageSrc (fst (Client.pollOperationResult server operationId st))
      = match op_result_image_path result with
        | Some path => if String.eqb path EmptyString
                       then Client.currentImageSrc st else path
        | None => Client.currentImageSrc st
        end)
  /\ (op_status result = failed ->
      snd (Client.pollOperationResult server operationId st) = S k
      /\ Client.isLoading (fst (Client.pollOperationResult server operationId st)) = false
      /\ Client.error (fst (Client.pollOperationResult server operationId st))
         = match op_error_message result with
           | Some message => if String.eqb message EmptyString
                             then "Operation failed"%string else message
           | None => "Operation failed"%string
           end
      /\ Client.currentImageSrc (fst (Client.pollOperationResult server operationId st))
         = Client.currentImageSrc st).
Proof.
  intros Hk Hun Hres.
  split; intro Hs.
  - destruct (poll_finds server operationId k result Client.maxAttempts
                Hk Hres (or_introl Hs) 0 st) as (seen & E);
      [lia|lia|intros j Hj; apply Hun; lia|].
    unfold Client.pollOperationResult. rewrite E.
    cbn [Client.poll]. rewrite Hres, Hs. cbn.
    repeat split.
    destruct (op_result_image_path result) as [path|]; [|reflexivity].
    cbn. now destruct (String.eqb path EmptyString).
  - destruct (poll_finds server operationId k result Client.maxAttempts
                Hk Hres (or_intror Hs) 0 st) as (seen & E);
      [lia|lia|intros j Hj; apply Hun; lia|].
    unfold Client.pollOperationResult. rewrite E.
    cbn [Client.poll]. rewrite Hres, Hs. cbn.
    repeat split.
    destruct (op_error_message result) as [message|]; [|reflexivity].
    cbn. now destruct (String.eqb message EmptyString).
Qed.

Lemma all_pending_unfinished (db : DB) (operationId : Z) :
  all_pending db -> Client.unfinished db operationId.
Proof.
  intro Hp. unfold Client.unfinished, getOperationResult, bind,
    select_ai_operations_where_id, ret.
  destruct (filter _ _) as [|r rest] eqn:E; cbn; [exact I|].
  assert (Hr : In r (filter (fun r => op_id r =? operationId) (aiOperationsTable db)))
    by (rewrite E; now left).
  apply filter_In in Hr. destruct Hr as [Hr _].
  left. exact (proj1 (Hp r Hr)).
Qed.

(** X7.  Against this server polling always times out: if each query is
    answered from a store reached from the empty store by some history of
    handler calls (the store may change between queries), polling any
    operation id makes 60 queries and ends with [Operation timed out]. *)
Theorem polling_this_server_times_out
    (calls : nat -> list call) (operationId : Z) (st : Client.State) :
  snd (Client.pollOperationResult (fun k => history (calls k) empty_db) operationId st)
  = 60%nat
  /\ Client.error
       (fst (Client.pollOperationResult (fun k => history (calls k) empty_db)
               operationId st))
     = "Operation timed out"%string.
Proof.
  destruct (poll_times_out (fun k => history (calls k) empty_db) operationId
              Client.maxAttempts 0 st) as (H1 & H2 & _).
  - unfold Client.maxAttempts. lia.
  - lia.
  - intros k _. apply all_pending_unfinished.
    apply history_keeps; [exact after_all_pending|]. intros r [].
  - split; [exact H1|exact H2].
Qed.

(* ================================================================== *)
(** * Reading operations back *)

Lemma canonical_zero (x : JsNumber.number) :
  JsNumber.canonical x -> JsNumber.is_zero x = true -> x = JsNumber.zero.
Proof.
  destruct x as [neg ds n]. unfold JsNumber.canonical, JsNumber.is_zero. cbn.
  destruct ds; [|discriminate]. intros [-> ->] _. reflexivity.
Qed.

Lemma coerce_stored (pt : option JsNumber.number) :
  number_ok pt ->
  coerce_processing_time pt
  = match pt with
    | Some x => if JsNumber.is_zero x then None else Some x
    | None => None
    end.
Proof.
  destruct pt as [x|]; cbn; [|reflexivity]. intro H.
  destruct (JsNumber.is_zero x); [reflexivity|].
  unfold parseFloat. now apply JsNumberFacts.parse_toString.
Qed.

Lemma listOperations_all (db : DB) :
  store_ok db ->
  listOperations None db
  = (Returned (orderBy_desc_created_at (aiOperationsTable db)), db).
Proof.
  intro Hok. unfold listOperations. f_equal. f_equal.
  rewrite <- (map_id (orderBy_desc_created_at (aiOperationsTable db))) at 2.
  apply map_ext_in. intros r Hr. apply coerce_not_null_stored.
  apply (operations_numbers db Hok).
  exact (Permutation_in r (orderBy_desc_created_at_perm _) Hr).
Qed.

(** X8.  [getOperationResult] gives a stored operation back field by field,
    except that a [processing_time] of 0 comes back as [null] (its
    truthiness test sends 0 and [null] the same way); [listOperations], which
    tests against [null], lists the same operation with its 0.  The two
    readers agree on an operation exactly when its [processing_time] is not
    0. *)
Theorem zero_processing_time_reads_null (db : DB) (operation : AIOperation) :
  store_ok db ->
  In operation (aiOperationsTable db) ->
  exists read rows,
    getOperationResult (op_id operation) db = (Returned (Some read), db)
    /\ listOperations None db = (Returned rows, db)
    /\ In operation rows
    /\ with_processing_time read (op_processing_time operation) = operation
    /\ (op_processing_time operation = Some JsNumber.zero ->
        op_processing_time read = None)
    /\ (op_processing_time operation <> Some JsNumber.zero -> read = operation).
Proof.
  intros Hok Hin.
  pose proof (operations_numbers db Hok operation Hin) as Hnum.
  exists (with_processing_time operation
            (coerce_processing_time (op_processing_time operation))).
  exists (orderBy_desc_created_at (aiOperationsTable db)).
  split.
  { unfold getOperationResult, bind, select_ai_operations_where_id, ret.
    now rewrite (select_unique op_id _ operation (operations_key db Hok) Hin). }
  split; [now apply listOperations_all|].
  split.
  { apply (Permutation_in operation
             (Permutation_sym (orderBy_desc_created_at_perm _)) Hin). }
  rewrite (coerce_stored _ Hnum).
  destruct operation as [i im ty st pr mk pa rp em pt ca ua]. cbn in *.
  split; [reflexivity|]. split.
  - intros ->. reflexivity.
  - intro Hnz. unfold with_processing_time. cbn. f_equal.
    destruct pt as [x|]; [|reflexivity].
    destruct (JsNumber.is_zero x) eqn:Ez; [|reflexivity].
    elim Hnz. f_equal. now apply canonical_zero.
Qed.

Lemma listOperations_run (imageId : option Z) (db : DB) :
  store_ok db ->
  listOperations imageId db
  = (Returned (orderBy_desc_created_at (operations_of imageId db)), db).
Proof.
  intro Hok. unfold listOperations. fold (operations_of imageId db). f_equal. f_equal.
  rewrite <- (map_id (orderBy_desc_created_at (operations_of imageId db))) at 2.
  apply map_ext_in. intros r Hr. apply coerce_not_null_stored.
  apply (operations_numbers db Hok). apply (operations_of_incl imageId).
  exact (Permutation_in r (orderBy_desc_created_at_perm _) Hr).
Qed.

Lemma orderBy_appended_newest (rows : list AIOperation) (x : AIOperation) :
  (forall r, In r rows -> op_created_at r < op_created_at x) ->
  orderBy_desc_created_at (rows ++ [x]) = x :: orderBy_desc_created_at rows.
Proof.
  induction rows as [|a rows IH]; intro H; [reflexivity|].
  cbn [app orderBy_desc_created_at fold_right].
  fold (orderBy_desc_created_at (rows ++ [x])).
  fold (orderBy_desc_created_at rows).
  rewrite IH by (intros r Hr; apply H; now right).
  cbn [insert_desc].
  destruct (Z.leb_spec (op_created_at x) (op_created_at a)) as [Hle|_];
    [|reflexivity].
  specialize (H a (or_introl eq_refl)). lia.
Qed.

(** The listings after one more operation has been inserted later than all
    the stored ones. *)
Lemma listing_after_insert (now : Z) (v : NewAIOperation) (db : DB) :
  store_ok db ->
  new_processing_time v = None ->
  (forall r, In r (aiOperationsTable db) -> op_created_at r < now) ->
  exists row db',
    insert_ai_operations now v db = (Returned row, db')
    /\ with_processing_time row (coerce_processing_time (op_processing_time row)) = row
    /\ (forall before,
          listOperations (Some (new_image_id v)) db = (Returned before, db) ->
          listOperations (Some (new_image_id v)) db' = (Returned (row :: before), db'))
    /\ (forall other before,
          other <> new_image_id v ->
          listOperations (Some other) db = (Returned before, db) ->
          listOperations (Some other) db' = (Returned before, db')).
Proof.
  intros Hok Hpt Hnow.
  assert (Hok' : store_ok (snd (insert_ai_operations now v db))).
  { apply insert_ai_operations_ok; [now rewrite Hpt|exact Hok]. }
  eexists. eexists. split; [reflexivity|].
  split; [cbn; now rewrite Hpt|].
  split.
  - intros before Hbefore. rewrite (listOperations_run _ db Hok) in Hbefore.
    injection Hbefore as <-.
    rewrite (listOperations_run _ _ Hok'). f_equal. f_equal.
    cbn [operations_of snd insert_ai_operations aiOperationsTable].
    rewrite filter_app. cbn [filter op_image_id]. rewrite Z.eqb_refl.
    apply orderBy_appended_newest.
    intros r Hr. apply filter_In in Hr. cbn. now apply Hnow.
  - intros other before Hother Hbefore.
    rewrite (listOperations_run _ db Hok) in Hbefore. injection Hbefore as <-.
    rewrite (listOperations_run _ _ Hok'). f_equal. f_equal.
    cbn [operations_of snd insert_ai_operations aiOperationsTable].
    rewrite filter_app. cbn [filter op_image_id].
    destruct (Z.eqb_spec (new_image_id v) other) as [E|_]; [now elim Hother|].
    now rewrite app_nil_r.
Qed.

Ltac create_then_list Hok Hnow H :=
  apply image_exists_select in H; destruct H as (?y & ?rest & H);
  unfold removeObject, applyStyleTransfer, modifyImage;
  unfold bind at 1; unfold select_images_where_id; rewrite H;
  cbn [List.length Nat.eqb];
  match goal with
  | |- context [insert_ai_operations ?now ?v] =>
      destruct (listing_after_insert now v _ Hok eq_refl Hnow)
        as (op & db' & Hins & Hco & Hsame & Hother);
      unfold bind; rewrite Hins; unfold ret; rewrite Hco;
      exists op, db'; split; [reflexivity|]; split; [exact Hsame|exact Hother]
  end.

(** X9.  When an operation is created later than every stored one, the
    listing of its image afterwards is the new operation followed by the
    listing as it was before, and the listing of every other image is
    unchanged; this holds for each of the three creation handlers. *)
Theorem new_operation_listed_first (now : Z) (db : DB) :
  store_ok db ->
  (forall r, In r (aiOperationsTable db) -> op_created_at r < now) ->
  (forall input,
     image_exists db (or_image_id input) ->
     exists op db',
       removeObject now input db = (Returned op, db')
       /\ (forall before,
             listOperations (Some (or_image_id input)) db = (Returned before, db) ->
             listOperations (Some (or_image_id input)) db'
             = (Returned (op :: before), db'))
       /\ (forall other before,
             other <> or_image_id input ->
             listOperations (Some other) db = (Returned before, db) ->
             listOperations (Some other) db' = (Returned before, db')))
  /\ (forall input,
        image_exists db (st_image_id input) ->
        exists op db',
          applyStyleTransfer now input db = (Returned op, db')
          /\ (forall before,
                listOperations (Some (st_image_id input)) db = (Returned before, db) ->
                listOperations (Some (st_image_id input)) db'
                = (Returned (op :: before), db'))
          /\ (forall other before,
                other <> st_image_id input ->
                listOperations (Some other) db = (Returned before, db) ->
                listOperations (Some other) db' = (Returned before, db')))
  /\ (forall input,
        image_exists db (im_image_id input) ->
        exists op db',
          modifyImage now input db = (Returned op, db')
          /\ (forall before,
                listOperations (Some (im_image_id input)) db = (Returned before, db) ->
                listOperations (Some (im_image_id input)) db'
                = (Returned (op :: before), db'))
          /\ (forall other before,
                other <> im_image_id input ->
                listOperations (Some other) db = (Returned before, db) ->
                listOperations (Some other) db' = (Returned before, db'))).
Proof.
  intros Hok Hnow. split; [|split]; intros input H; create_then_list Hok Hnow H.
Qed.

(* ================================================================== *)
(** * Creating and reading projects *)



(* ================================================================== *)
(** * Uploading images *)


(* ================================================================== *)
(** * The mask of a modification *)

(** X13.  [modifyImage] stores an absent, [null] or empty mask as [null]
    and any other mask as it is, while it stores the prompt as it is, empty
    or not; the operation read back by [getOperationResult] shows the same
    values. *)
Theorem empty_mask_is_null (now : Z) (input : ImageModificationInput) (db : DB) :
  store_ok db ->
  image_exists db (im_image_id input) ->
  exists op db',
    modifyImage now input db = (Returned op, db')
    /\ getOperationResult (op_id op) db' = (Returned (Some op), db')
    /\ op_prompt op = Some (im_prompt input)
    /\ op_mask_data op
       = match im_mask_data input with
         | Some mask => if String.eqb mask EmptyString then None else Some mask
         | None => None
         end.
Proof.
  intros Hok H. apply image_exists_select in H. destruct H as (y & rest & H).
  unfold modifyImage. unfold bind at 1. unfold select_images_where_id. rewrite H.
  cbn [List.length Nat.eqb].
  match goal with
  | |- context [insert_ai_operations ?now ?v] =>
      destruct (read_back_created now v db Hok eq_refl)
        as (op & db' & Hins & Hco & Hpar & Hget)
  end.
  unfold bind. rewrite Hins. unfold ret. rewrite Hco.
  exists op, db'. split; [reflexivity|]. split; [exact Hget|].
  cbn in Hins. injection Hins as <- _. cbn. split; reflexivity.
Qed.

(* ================================================================== *)
(** * Pages of projects *)





(* ================================================================== *)
(** * Validation *)

Module JsArithFacts.
Import JsArith.

Lemma pow10_pos (e : Z) : 0 <= e -> 0 < 10 ^ e.
Proof. intro H. apply Z.pow_pos_nonneg; lia. Qed.

(** An integral number is its integer times a power of ten, at any scale
    below its own and below 0. *)
Lemma scaled_integer_neg (x : JsNumber.number) (m : Z) :
  is_integer x = true -> m <= scale x -> m <= 0 ->
  mantissa x * 10 ^ (scale x - m) = to_Z x * 10 ^ (- m).
Proof.
  unfold is_integer, to_Z. intros Hint Hm H0.
  destruct (Z.leb_spec 0 (scale x)) as [Hs|Hs].
  - replace (scale x - m) with (scale x + - m) by lia.
    rewrite Z.pow_add_r by lia. lia.
  - cbn [orb] in Hint. apply Z.eqb_eq in Hint.
    pose proof (pow10_pos (- scale x)) as Hp.
    assert (E : mantissa x = 10 ^ (- scale x) * (mantissa x / 10 ^ (- scale x))).
    { apply Z.div_exact; [lia|exact Hint]. }
    rewrite E at 1.
    replace (- m) with (- scale x + (scale x - m)) by lia.
    rewrite (Z.pow_add_r 10 (- scale x) (scale x - m)) by lia. lia.
Qed.

Lemma scaled_integer_pos (x : JsNumber.number) (m : Z) :
  0 <= m -> m <= scale x ->
  mantissa x * 10 ^ (scale x - m) * 10 ^ m = to_Z x.
Proof.
  unfold to_Z. intros H0 Hm.
  destruct (Z.leb_spec 0 (scale x)) as [Hs|Hs]; [|lia].
  rewrite <- Z.mul_assoc, <- Z.pow_add_r by lia. f_equal. f_equal. lia.
Qed.

(** On integral numbers [leb] is the order of the integers. *)
Lemma leb_integers (x y : JsNumber.number) :
  is_integer x = true -> is_integer y = true ->
  leb x y = true <-> to_Z x <= to_Z y.
Proof.
  intros Hx Hy. unfold leb.
  set (m := Z.min (scale x) (scale y)).
  assert (Hmx : m <= scale x) by (unfold m; lia).
  assert (Hmy : m <= scale y) by (unfold m; lia).
  rewrite Z.leb_le.
  destruct (Z.le_gt_cases m 0) as [Hm|Hm].
  - rewrite (scaled_integer_neg x m Hx Hmx Hm), (scaled_integer_neg y m Hy Hmy Hm).
    pose proof (pow10_pos (- m)) as Hp. split; intro H; nia.
  - rewrite <- (scaled_integer_pos x m), <- (scaled_integer_pos y m) by lia.
    pose proof (pow10_pos m) as Hp. split; intro H; nia.
Qed.

End JsArithFacts.

Lemma number_with_default_integer
    (min max : option JsNumber.number) (default : JsNumber.number)
    (raw : option JsNumber.number) (v : JsNumber.number) :
  Schema.number_with_default true min max default raw = Some v ->
  v = match raw with Some x => x | None => default end
  /\ JsArith.is_integer v = true
  /\ Schema.at_least min v = true
  /\ Schema.at_most max v = true.
Proof.
  unfold Schema.number_with_default.
  destruct (JsArith.is_integer _) eqn:E1; [|discriminate].
  destruct (Schema.at_least _ _) eqn:E2; [|discriminate].
  destruct (Schema.at_most _ _) eqn:E3; [|discriminate].
  cbn. intro H. injection H as <-. repeat split; assumption.
Qed.

(** What [listProjectsInputSchema] lets through. *)
Lemma listProjectsInput_accepts
    (raw : Schema.ListProjectsQuery) (input : ListProjectsInput) :
  Schema.listProjectsInput raw = Some input ->
  listProjectsInputSchema input = true
  /\ (Schema.q_limit raw = None -> lp_limit input = 20)
  /\ (Schema.q_offset raw = None -> lp_offset input = 0)
  /\ lp_public_only input
     = match Schema.q_public_only raw with Some b => b | None => false end.
Proof.
  unfold Schema.listProjectsInput.
  destruct (Schema.number_with_default true (Some Schema.n1) (Some Schema.n100)
              Schema.n20 (Schema.q_limit raw)) as [limit|] eqn:El; [|discriminate].
  destruct (Schema.number_with_default true (Some Schema.n0) None
              Schema.n0 (Schema.q_offset raw)) as [offset|] eqn:Eo; [|discriminate].
  intro H. injection H as <-.
  apply number_with_default_integer in El, Eo.
  destruct El as (El & Hli & Hl1 & Hl2). destruct Eo as (Eo & Hoi & Ho1 & _).
  cbn [Schema.at_least Schema.at_most] in *.
  apply (JsArithFacts.leb_integers Schema.n1 limit eq_refl Hli) in Hl1.
  apply (JsArithFacts.leb_integers limit Schema.n100 Hli eq_refl) in Hl2.
  apply (JsArithFacts.leb_integers Schema.n0 offset eq_refl Hoi) in Ho1.
  change (JsArith.to_Z Schema.n1) with 1 in Hl1.
  change (JsArith.to_Z Schema.n100) with 100 in Hl2.
  change (JsArith.to_Z Schema.n0) with 0 in Ho1.
  unfold listProjectsInputSchema. cbn [lp_limit lp_offset lp_public_only].
  repeat split.
  - apply andb_true_intro. split; [apply andb_true_intro; split|];
      apply Z.leb_le; assumption.
  - intro E. rewrite E in El. now subst limit.
  - intro E. rewrite E in Eo. now subst offset.
Qed.

(** X16.  A [listProjects] request that passes its schema has a limit
    between 1 and 100 and an offset of at least 0; a limit that is left out
    becomes 20, an offset that is left out becomes 0 and a [public_only] that
    is left out becomes [false].  A limit or offset that is not an integer,
    a limit below 1 or above 100 and an offset below 0 are each rejected. *)
Theorem list_request_validation (raw : Schema.ListProjectsQuery) :
  (forall input,
     Schema.listProjectsInput raw = Some input ->
     1 <= lp_limit input <= 100
     /\ 0 <= lp_offset input
     /\ (Schema.q_limit raw = None -> lp_limit input = 20)
     /\ (Schema.q_offset raw = None -> lp_offset input = 0)
     /\ (Schema.q_public_only raw = None -> lp_public_only input = false))
  /\ (forall limit,
        Schema.q_limit raw = Some limit ->
        JsArith.is_integer limit = false
        \/ JsArith.leb Schema.n1 limit = false
        \/ JsArith.leb limit Schema.n100 = false ->
        Schema.listProjectsInput raw = None)
  /\ (forall offset,
        Schema.q_offset raw = Some offset ->
        JsArith.is_integer offset = false
        \/ JsArith.leb Schema.n0 offset = false ->
        Schema.listProjectsInput raw = None).
Proof.
  split; [|split].
  - intros input H. destruct (listProjectsInput_accepts raw input H)
      as (Hs & Hl & Ho & Hp).
    unfold listProjectsInputSchema in Hs.
    apply andb_prop in Hs. destruct Hs as [Hs Hoff].
    apply andb_prop in Hs. destruct Hs as [Hlo Hhi].
    apply Z.leb_le in Hlo, Hhi, Hoff.
    repeat split; try assumption.
    intro E. now rewrite Hp, E.
  - intros limit E H. unfold Schema.listProjectsInput, Schema.number_with_default.
    rewrite E. cbn [Schema.at_least Schema.at_most].
    destruct H as [H|[H|H]]; rewrite H; cbn; rewrite ?andb_false_r; reflexivity.
  - intros offset E H. unfold Schema.listProjectsInput.
    destruct (Schema.number_with_default true (Some Schema.n1) _ _ _);
      [|reflexivity].
    unfold Schema.number_with_default. rewrite E. cbn [Schema.at_least Schema.at_most].
    destruct H as [H|H]; rewrite H; cbn; rewrite ?andb_false_r; reflexivity.
Qed.


Lemma number_with_default_spec
    (int : bool) (min max : option JsNumber.number) (default : JsNumber.number)
    (raw : option JsNumber.number) (v : JsNumber.number) :
  Schema.number_with_default int min max default raw = Some v ->
  v = match raw with Some x => x | None => default end
  /\ Schema.at_least min v = true
  /\ Schema.at_most max v = true
  /\ Schema.number_with_default int min max default (Some v) = Some v.
Proof.
  unfold Schema.number_with_default.
  destruct ((if int then JsArith.is_integer _ else true)
            && Schema.at_least min _ && Schema.at_most max _) eqn:E; [|discriminate].
  intro H. injection H as <-. rewrite E.
  apply andb_prop in E. destruct E as [E E3].
  apply andb_prop in E. destruct E as [E1 E2].
  repeat split; assumption.
Qed.

(** X18.  A parameter bag that passes its schema comes out complete: every
    tuning value is present, a supplied value is kept and a missing one is
    replaced by its default (0.8 and 7.5 for object removal; 0.7, 7.5 and 50
    for style transfer; 0.8, 7.5 and 50 for image modification), every
    value lies within its bounds, and validating the result again changes
    nothing. *)
Theorem parsed_bags_are_complete :
  (forall raw parsed,
     Schema.objectRemovalParameters raw = Some parsed ->
     exists a b,
       parsed = mkObjectRemovalParameters (Some a) (Some b)
       /\ a = match orp_inpaint_strength raw with Some v => v | None => Schema.n0_8 end
       /\ b = match orp_guidance_scale raw with Some v => v | None => Schema.n7_5 end
       /\ JsArith.leb Schema.n0 a = true /\ JsArith.leb a Schema.n1 = true
       /\ JsArith.leb Schema.n1 b = true /\ JsArith.leb b Schema.n20 = true
       /\ Schema.objectRemovalParameters parsed = Some parsed)
  /\ (forall raw parsed,
        Schema.styleTransferParameters raw = Some parsed ->
        exists a b c,
          parsed = mkStyleTransferParameters (Some a) (Some b) (Some c)
          /\ a = match stp_style_strength raw with Some v => v | None => Schema.n0_7 end
          /\ b = match stp_guidance_scale raw with Some v => v | None => Schema.n7_5 end
          /\ c = match stp_num_inference_steps raw with
                 | Some v => v | None => Schema.n50 end
          /\ JsArith.leb Schema.n0 a = true /\ JsArith.leb a Schema.n1 = true
          /\ JsArith.leb Schema.n1 b = true /\ JsArith.leb b Schema.n20 = true
          /\ JsArith.leb Schema.n10 c = true /\ JsArith.leb c Schema.n100 = true
          /\ Schema.styleTransferParameters parsed = Some parsed)
  /\ (forall raw parsed,
        Schema.imageModificationParameters raw = Some parsed ->
        exists a b c,
          parsed = mkImageModificationParameters (Some a) (Some b) (Some c)
          /\ a = match imp_modification_strength raw with
                 | Some v => v | None => Schema.n0_8 end
          /\ b = match imp_guidance_scale raw with Some v => v | None => Schema.n7_5 end
          /\ c = match imp_num_inference_steps raw with
                 | Some v => v | None => Schema.n50 end
          /\ JsArith.leb Schema.n0 a = true /\ JsArith.leb a Schema.n1 = true
          /\ JsArith.leb Schema.n1 b = true /\ JsArith.leb b Schema.n20 = true
          /\ JsArith.leb Schema.n10 c = true /\ JsArith.leb c Schema.n100 = true
          /\ Schema.imageModificationParameters parsed = Some parsed).
Proof.
  split; [|split]; intros raw parsed Hparsed;
    unfold Schema.objectRemovalParameters, Schema.styleTransferParameters,
      Schema.imageModificationParameters in Hparsed;
    repeat match type of Hparsed with
           | context [Schema.number_with_default ?i ?lo ?hi ?d ?r] =>
               let E := fresh "E" in
               destruct (Schema.number_with_default i lo hi d r) eqn:E;
               [apply number_with_default_spec in E;
                destruct E as (? & ? & ? & ?)|]
           end;
    try discriminate Hparsed; injection Hparsed as <-;
    cbn [Schema.at_least Schema.at_most] in *;
    repeat eexists; try eassumption;
    unfold Schema.objectRemovalParameters, Schema.styleTransferParameters,
      Schema.imageModificationParameters;
    cbn [orp_inpaint_strength orp_guidance_scale stp_style_strength
         stp_guidance_scale stp_num_inference_steps imp_modification_strength
         imp_guidance_scale imp_num_inference_steps];
    repeat match goal with
           | H : Schema.number_with_default _ _ _ _ (Some _) = Some _ |- _ =>
               rewrite H; clear H
           end;
    reflexivity.
Qed.

Lemma default_or_supplied_ok (raw : option JsNumber.number) (default : JsNumber.number) :
  number_ok raw -> JsNumber.canonical default ->
  JsNumber.canonical (match raw with Some x => x | None => default end).
Proof. destruct raw; cbn; auto. Qed.

Ltac run_creation Hok H :=
  apply image_exists_select in H; destruct H as (?y & ?rest & H);
  unfold removeObject, applyStyleTransfer, modifyImage;
  unfold bind at 1; unfold select_images_where_id;
  cbn [or_image_id st_image_id im_image_id]; rewrite H;
  cbn [List.length Nat.eqb];
  match goal with
  | |- context [insert_ai_operations ?now ?v] =>
      destruct (read_back_created now v _ Hok eq_refl)
        as (op & db' & Hins & Hco & Hpar & Hget);
      unfold bind; rewrite Hins; unfold ret; rewrite Hco;
      cbn [new_parameters or_parameters st_parameters im_parameters] in Hpar
  end.

(** X19.  Through the router, [removeObject] on a stored image keeps an
    omitted parameter bag omitted: the operation is stored with [parameters]
    null, the defaults are not written.  A supplied bag is either rejected
    (a value out of bounds), with nothing written, or stored as the text of
    the complete bag: parsing the stored text gives both properties, each
    with the supplied value or, where none was supplied, its default 0.8 or
    7.5. *)
Theorem removal_request_stores_defaults
    (now : Z) (raw : ObjectRemovalInput) (db : DB) :
  store_ok db ->
  image_exists db (or_image_id raw) ->
  match or_parameters raw with
  | None =>
      exists op db',
        appRouter.removeObject now raw db = (Handled (Returned op), db')
        /\ op_parameters op = None
  | Some bag =>
      ObjectRemovalParameters_ok bag ->
      appRouter.removeObject now raw db = (Rejected, db)
      \/ exists op db' text,
           appRouter.removeObject now raw db = (Handled (Returned op), db')
           /\ op_parameters op = Some text
           /\ JSON.parse text
              = Some [("inpaint_strength"%string,
                       match orp_inpaint_strength bag with
                       | Some v => v | None => Schema.n0_8 end);
                      ("guidance_scale"%string,
                       match orp_guidance_scale bag with
                       | Some v => v | None => Schema.n7_5 end)]
  end.
Proof.
  intros Hok H. unfold appRouter.removeObject, procedure, Schema.objectRemovalInput.
  destruct (or_parameters raw) as [bag|] eqn:Ebag.
  - intros [Hb1 Hb2].
    destruct (Schema.objectRemovalParameters bag) as [parsed|] eqn:Ep; [right|now left].
    unfold Schema.objectRemovalParameters in Ep.
    destruct (Schema.number_with_default false (Some Schema.n0) _ _ _) as [a|] eqn:Ea;
      [|discriminate].
    destruct (Schema.number_with_default false (Some Schema.n1) _ _ _) as [b|] eqn:Eb;
      [|discriminate].
    injection Ep as <-.
    apply number_with_default_spec in Ea, Eb.
    destruct Ea as (Ea & _). destruct Eb as (Eb & _).
    assert (Hparsed : ObjectRemovalParameters_ok
                        (mkObjectRemovalParameters (Some a) (Some b))).
    { split; cbn; [rewrite Ea|rewrite Eb]; apply default_or_supplied_ok;
        try assumption; cbn; split; discriminate. }
    destruct (ObjectRemovalParameters_round_trip _ Hparsed) as [Hparse _].
    match goal with
    | |- context [removeObject now ?i db] =>
        assert (Hrun : exists op db',
                  removeObject now i db = (Returned op, db')
                  /\ op_parameters op
                     = Some (JSON.stringify
                               (ObjectRemovalParameters_object
                                  (mkObjectRemovalParameters (Some a) (Some b)))))
    end.
    { run_creation Hok H. exists op, db'. split; [reflexivity|exact Hpar]. }
    destruct Hrun as (op & db' & Hrun & Hpar).
    rewrite Hrun. exists op, db'. eexists.
    split; [reflexivity|]. split; [exact Hpar|].
    rewrite Hparse, Ea, Eb. reflexivity.
  - match goal with
    | |- context [removeObject now ?i db] =>
        assert (Hrun : exists op db',
                  removeObject now i db = (Returned op, db')
                  /\ op_parameters op = None)
    end.
    { run_creation Hok H. exists op, db'. split; [reflexivity|exact Hpar]. }
    destruct Hrun as (op & db' & Hrun & Hpar).
    rewrite Hrun. exists op, db'. split; [reflexivity|exact Hpar].
Qed.

Lemma images_after_other (c : call) (db : DB) :
  match c with call_uploadImage _ _ => False | _ => True end ->
  imagesTable (after c db) = imagesTable db.
Proof.
  destruct c as [now input|id|now input|now input|now input|id|id|now input|id|input];
    intro H; try (now elim H); cbn [after]; try reflexivity;
    unfold getImage, getOperationResult, createProject, getProject, listProjects,
      removeObject, applyStyleTransfer, modifyImage,
      bind, select_images_where_id, select_ai_operations_where_id,
      select_projects_where_id, throw, ret;
    first [ now destruct (filter _ _) | now destruct (lp_public_only input) ].
Qed.

(** X20.  Every image stored through the router's [uploadImage] has a
    positive size, width and height: the procedure rejects any other request
    without writing, so a store whose images are all positive stays so; and
    no other handler adds or changes an image. *)
Theorem uploads_keep_images_positive (db : DB) :
  images_positive db ->
  (forall now raw,
     images_positive (snd (appRouter.uploadImage now raw db))
     /\ (uploadImageInputSchema raw = false ->
         appRouter.uploadImage now raw db = (Rejected, db)))
  /\ (forall c,
        match c with call_uploadImage _ _ => False | _ => True end ->
        imagesTable (after c db) = imagesTable db).
Proof.
  intro Hpos. split.
  - intros now raw. unfold appRouter.uploadImage, procedure, Schema.uploadImageInput.
    destruct (uploadImageInputSchema raw) eqn:E; [|split; [exact Hpos|reflexivity]].
    split; [|discriminate].
    unfold uploadImageInputSchema in E.
    apply andb_prop in E. destruct E as [E Hh].
    apply andb_prop in E. destruct E as [Hs Hw].
    apply Z.ltb_lt in Hs, Hw, Hh.
    cbn. intros r Hr. apply in_app_or in Hr.
    destruct Hr as [Hr|[<-|[]]]; [now apply Hpos|]. cbn. auto.
  - intros c Hc. now apply images_after_other.
Qed.

(* ================================================================== *)
(** * The placeholder declarations *)


(* ================================================================== *)
(** * The text of the not-found error *)


(* ================================================================== *)
(** * The store only grows *)

Lemma after_appends (c : call) (db : DB) :
  exists e1 e2 e3,
    imagesTable (after c db) = imagesTable db ++ e1
    /\ aiOperationsTable (after c db) = aiOperationsTable db ++ e2
    /\ projectsTable (after c db) = projectsTable db ++ e3
    /\ (List.length e1 + List.length e2 + List.length e3 <= 1)%nat.
Proof.
  destruct c as [now input|id|now input|now input|now input|id|id|now input|id|input];
    cbn [after];
    unfold getImage, getOperationResult, createProject, getProject, listProjects,
      removeObject, applyStyleTransfer, modifyImage, uploadImage, listOperations,
      bind, select_images_where_id, select_ai_operations_where_id,
      select_projects_where_id, throw, ret;
    try match goal with
        | |- context [lp_public_only ?i] => destruct (lp_public_only i)
        | |- context [filter ?f ?l] => destruct (filter f l)
        end;
    cbn [snd imagesTable aiOperationsTable projectsTable insert_images
         insert_ai_operations insert_projects];
    do 3 eexists;
    (split; [first [reflexivity | symmetry; apply app_nil_r]|]);
    (split; [first [reflexivity | symmetry; apply app_nil_r]|]);
    (split; [first [reflexivity | symmetry; apply app_nil_r]|]);
    cbn; lia.
Qed.

(** X23.  The handlers [uploadImage], [getImage], [removeObject],
    [applyStyleTransfer], [modifyImage], [getOperationResult],
    [listOperations], [createProject], [getProject] and [listProjects] never
    change or remove a stored row: after any history of such calls each
    table consists of the rows it had, in their order, followed by the rows
    added since, at most one per call. *)
Theorem store_only_grows (calls : list call) (db : DB) :
  exists e1 e2 e3,
    imagesTable (history calls db) = imagesTable db ++ e1
    /\ aiOperationsTable (history calls db) = aiOperationsTable db ++ e2
    /\ projectsTable (history calls db) = projectsTable db ++ e3
    /\ (List.length e1 + List.length e2 + List.length e3 <= List.length calls)%nat.
Proof.
  revert db. unfold history.
  induction calls as [|c calls IH]; intro db; cbn [fold_left].
  - exists [], [], []. rewrite !app_nil_r. cbn. repeat split. lia.
  - destruct (after_appends c db) as (a1 & a2 & a3 & Ha1 & Ha2 & Ha3 & Hlen).
    destruct (IH (after c db)) as (b1 & b2 & b3 & Hb1 & Hb2 & Hb3 & Hlen').
    exists (a1 ++ b1), (a2 ++ b2), (a3 ++ b3).
    rewrite Hb1, Hb2, Hb3, Ha1, Ha2, Ha3, <- !app_assoc, !length_app.
    repeat split. cbn [List.length]. lia.
Qed.

(* ================================================================== *)
(** * The project list of the client *)

(** X24.  [loadProjects] always ends with the loading flag off, no error,
    and the first 20 rows of the projects table, in table order and whatever
    their visibility: a project stored after the twentieth is never shown. *)
Theorem project_list_shows_first_twenty (db : DB) (st : ProjectList.State) :
  ProjectList.loadProjects db st
  = ProjectList.mkState (firstn 20 (projectsTable db)) false EmptyString.
Proof.
  unfold ProjectList.loadProjects, appRouter.listProjects, procedure.
  change (Schema.listProjectsInput ProjectList.query)
    with (Some (mkListProjectsInput 20 0 false)).
  cbv beta iota. rewrite listProjects_run. reflexivity.
Qed.

(* ================================================================== *)
(** * The statements at work *)

Lemma fixture_worked_ok : store_ok Fixture.worked.
Proof.
  constructor; cbn.
  - intros r [<-|[]]. cbn. lia.
  - repeat constructor. intros [].
  - intros r [<-|[<-|[]]]; cbn; lia.
  - repeat constructor; cbn; intuition discriminate.
  - intros r [<-|[<-|[]]]; cbn; auto.
  - intros r [].
  - constructor.
Qed.

Lemma photo_exists : image_exists Sample.one_image 1.
Proof. exists Sample.photo. split; [now left|reflexivity]. Qed.

Lemma polling_times_out_witness :
  snd (Client.pollOperationResult (fun _ => Sample.three_operations) 1 Fixture.state)
  = 60%nat
  /\ Client.error
       (fst (Client.pollOperationResult (fun _ => Sample.three_operations) 1
               Fixture.state))
     = "Operation timed out"%string
  /\ Client.isLoading
       (fst (Client.pollOperationResult (fun _ => Sample.three_operations) 1
               Fixture.state))
     = false
  /\ Client.currentImageSrc
       (fst (Client.pollOperationResult (fun _ => Sample.three_operations) 1
               Fixture.state))
     = "/uploads/test-image.jpg"%string.
Proof.
  apply (polling_times_out (fun _ => Sample.three_operations) 1 Fixture.state).
  intros k _. cbn. left. reflexivity.
Defined.

Lemma polling_reports_first_result_witness :
  snd (Client.pollOperationResult Fixture.server 1 Fixture.state) = 4%nat
  /\ Client.isLoading (fst (Client.pollOperationResult Fixture.server 1 Fixture.state))
     = false
  /\ Client.error (fst (Client.pollOperationResult Fixture.server 1 Fixture.state))
     = EmptyString
  /\ Client.currentImageSrc
       (fst (Client.pollOperationResult Fixture.server 1 Fixture.state))
     = "/results/processed-image.jpg"%string.
Proof.
  destruct (polling_reports_first_result Fixture.server 1 Fixture.state 3
              (with_processing_time Fixture.finished None)) as [Hcompleted _].
  - lia.
  - intros j Hj.
    destruct j as [|[|[|j]]]; [cbn; left; reflexivity ..|lia].
  - reflexivity.
  - apply Hcompleted. reflexivity.
Defined.

Lemma zero_processing_time_reads_null_witness :
  exists read rows,
    getOperationResult 1 Fixture.worked = (Returned (Some read), Fixture.worked)
    /\ listOperations None Fixture.worked = (Returned rows, Fixture.worked)
    /\ In Fixture.finished rows
    /\ op_processing_time read = None.
Proof.
  destruct (zero_processing_time_reads_null Fixture.worked Fixture.finished
              fixture_worked_ok)
    as (read & rows & Hget & Hlist & Hin & _ & Hzero & _).
  - cbn. now left.
  - exists read, rows. repeat (split; [assumption|]). now apply Hzero.
Defined.

Lemma new_operation_listed_first_witness :
  exists op db',
    applyStyleTransfer 2000 (mkStyleTransferInput 1 "watercolor" None)
      Sample.three_operations = (Returned op, db')
    /\ listOperations (Some 1) db'
       = (Returned [op; Sample.operation 3 1020; Sample.operation 2 1010;
                    Sample.operation 1 1000], db')
    /\ listOperations (Some 7) db' = (Returned [], db').
Proof.
  destruct (new_operation_listed_first 2000 Sample.three_operations
              sample_three_operations_ok) as (_ & Hstyle & _).
  - intros r [<-|[<-|[<-|[]]]]; cbn; lia.
  - destruct (Hstyle (mkStyleTransferInput 1 "watercolor" None))
      as (op & db' & Hrun & Hsame & Hother).
    + exists Sample.photo. split; [now left|reflexivity].
    + exists op, db'. split; [exact Hrun|]. split.
      * apply Hsame. reflexivity.
      * apply Hother; [discriminate|reflexivity].
Defined.




Lemma empty_mask_is_null_witness :
  exists op db',
    modifyImage 2000
      (mkImageModificationInput 1 EmptyString (Some EmptyString) None)
      Sample.one_image = (Returned op, db')
    /\ getOperationResult (op_id op) db' = (Returned (Some op), db')
    /\ op_prompt op = Some EmptyString
    /\ op_mask_data op = None.
Proof.
  apply (empty_mask_is_null 2000
           (mkImageModificationInput 1 EmptyString (Some EmptyString) None)
           Sample.one_image sample_one_image_ok photo_exists).
Defined.



Lemma list_request_validation_witness :
  Schema.listProjectsInput Fixture.second_page
  = Some (mkListProjectsInput 2 2 false)
  /\ Schema.listProjectsInput
       (Schema.mkListProjectsQuery (Some Fixture.n2_5) None None) = None
  /\ Schema.listProjectsInput
       (Schema.mkListProjectsQuery None
          (Some (JsNumber.mkNumber true [JsNumber.dig1] 1)) None) = None.
Proof.
  split; [reflexivity|]. split.
  - apply (proj1 (proj2 (list_request_validation
                           (Schema.mkListProjectsQuery (Some Fixture.n2_5) None None)))
             Fixture.n2_5); [reflexivity|].
    left. reflexivity.
  - apply (proj2 (proj2 (list_request_validation
                           (Schema.mkListProjectsQuery None
                              (Some (JsNumber.mkNumber true [JsNumber.dig1] 1)) None)))
             (JsNumber.mkNumber true [JsNumber.dig1] 1)); [reflexivity|].
    right. reflexivity.
Defined.


Lemma parsed_bags_are_complete_witness :
  exists a b,
    mkObjectRemovalParameters (Some Sample.n0_9) (Some Schema.n7_5)
    = mkObjectRemovalParameters (Some a) (Some b)
    /\ a = Sample.n0_9
    /\ b = Schema.n7_5
    /\ JsArith.leb Schema.n0 a = true /\ JsArith.leb a Schema.n1 = true
    /\ JsArith.leb Schema.n1 b = true /\ JsArith.leb b Schema.n20 = true
    /\ Schema.objectRemovalParameters
         (mkObjectRemovalParameters (Some Sample.n0_9) (Some Schema.n7_5))
       = Some (mkObjectRemovalParameters (Some Sample.n0_9) (Some Schema.n7_5)).
Proof.
  apply (proj1 parsed_bags_are_complete
           (mkObjectRemovalParameters (Some Sample.n0_9) None)
           (mkObjectRemovalParameters (Some Sample.n0_9) (Some Schema.n7_5))).
  reflexivity.
Defined.

Lemma removal_request_stores_defaults_witness :
  exists op db' text,
    appRouter.removeObject 2000 Fixture.removal Sample.one_image
    = (Handled (Returned op), db')
    /\ op_parameters op = Some text
    /\ JSON.parse text
       = Some [("inpaint_strength"%string, Sample.n0_9);
               ("guidance_scale"%string, Schema.n7_5)].
Proof.
  destruct (removal_request_stores_defaults 2000 Fixture.removal Sample.one_image
              sample_one_image_ok photo_exists) as [H|H].
  - split; cbn; [split; discriminate|exact I].
  - discriminate H.
  - exact H.
Defined.

Lemma uploads_keep_images_positive_witness :
  images_positive (snd (appRouter.uploadImage 2000 Sample.upload Sample.one_image))
  /\ appRouter.uploadImage 2000
       (mkUploadImageInput "a.jpg" "a.jpg" "/uploads/a.jpg" 0 "image/jpeg" 10 10)
       Sample.one_image = (Rejected, Sample.one_image).
Proof.
  assert (Hpos : images_positive Sample.one_image).
  { intros r [<-|[]]. cbn. lia. }
  destruct (uploads_keep_images_positive Sample.one_image Hpos) as [Hup _].
  split.
  - exact (proj1 (Hup 2000 Sample.upload)).
  - apply (proj2 (Hup 2000
                    (mkUploadImageInput "a.jpg" "a.jpg" "/uploads/a.jpg" 0
                       "image/jpeg" 10 10))).
    reflexivity.
Defined.


